(** * vscode-jest-vis: the test-pattern coverage store and the line scoring engine

    A shallow embedding of
    - [TestPatternsCoverageMapProvider] (src/TestPatternsCoverage/TestPatternsCoverageMapProvider.ts),
      the store that keeps, per test pattern, a coverage map and a verdict, and per
      file the set of test patterns indexed against it;
    - [AbstractFormatter.lineCoverages] (Formatters/AbstractFormatter.ts, kept as
      src/unnamed/part_002), the per-line tally of passing and failing runs and the
      hue derived from it.

    Conventions of the embedding.
    - A JS [Map<string, V>] is a [gmap string V]; a JS [Set<string>] is the list of its
      elements in insertion order (the order [...set] enumerates), without duplicates.
    - A [CoverageMap] is its [data] object, a [gmap string FileCoverage].  The store
      holds coverage maps by value: a [CoverageMap] object that a caller hands to
      [update] and keeps, or hands in for two patterns, is not tracked as shared.
    - JS numbers that count things are integers ([Z]).  The numbers produced by [/] are
      modelled by [number]: exact rationals together with the non-finite results
      JavaScript gives for a division by zero.  Rounding to binary64 is not modelled.
    - [update] is [async]; the model is the call run to completion, its single
      suspension point ([await transformCoverage]) not interleaved with other calls.
    - A method that can throw is a computation in the monad [Eff]: it returns the
      store as mutated up to the throw together with the completion. *)

From Stdlib Require Import QArith Qcanon.
From stdpp Require Import base numbers option list sorting strings gmap fin_maps.
From stdpp Require Import pretty.

Open Scope Z_scope.

(** ** JavaScript numbers resulting from division *)

Module Number.

Inductive number : Type :=
| Fin (q : Qc)
| PosInfinity
| NegInfinity
| NaN.

Definition of_Z (n : Z) : number := Fin (Qc_of_Z n).

(** [x + y] *)
Definition add (x y : number) : number :=
  match x, y with
  | NaN, _ | _, NaN => NaN
  | PosInfinity, NegInfinity | NegInfinity, PosInfinity => NaN
  | PosInfinity, _ | _, PosInfinity => PosInfinity
  | NegInfinity, _ | _, NegInfinity => NegInfinity
  | Fin a, Fin b => Fin (a + b)%Qc
  end.

(** [x / y]; a zero divisor is the positive zero, the only zero that counting
    produces. *)
Definition div (x y : number) : number :=
  match x, y with
  | NaN, _ | _, NaN => NaN
  | Fin a, Fin b =>
      if decide (b = 0%Qc) then
        if decide (a = 0%Qc) then NaN
        else if decide (0 < a)%Qc then PosInfinity else NegInfinity
      else Fin (a / b)%Qc
  | Fin _, (PosInfinity | NegInfinity) => Fin 0%Qc
  | PosInfinity, Fin b => if decide (0 <= b)%Qc then PosInfinity else NegInfinity
  | NegInfinity, Fin b => if decide (0 <= b)%Qc then NegInfinity else PosInfinity
  | (PosInfinity | NegInfinity), (PosInfinity | NegInfinity) => NaN
  end.

(** [x === 0] *)
Definition is_zero (x : number) : bool :=
  match x with
  | Fin q => bool_decide (q = 0%Qc)
  | _ => false
  end.

End Number.

Import Number.

(** ** Coverage data (istanbul-lib-coverage), as the code reads it *)

Record Location := { line : Z; column : Z }.
Record Range := { start : Location; end_ : Location }.

(** An entry of [fnMap]; only [decl] is read. *)
Record FunctionMapping := { name : string; decl : Range }.

(** A value of the object returned by [getBranchCoverageByLine()]. *)
Record BranchLineCoverage := { covered : Z; total : Z; coverage : number }.

(** A [FileCoverage] object.  [fnMap] lists the entries of the [fnMap] object in the
    order [Object.entries] enumerates them; [f] is the table of function hit counts.
    [getLineCoverage] and [getBranchCoverageByLine] are the objects the two library
    methods of those names return for this file coverage. *)
Record FileCoverage := {
  path : string;
  fnMap : list (string * FunctionMapping);
  f : gmap string Z;
  getLineCoverage : gmap Z Z;
  getBranchCoverageByLine : gmap Z BranchLineCoverage
}.

(** [CoverageMap.data] *)
Abbreviation CoverageMap := (gmap string FileCoverage).

(** [createCoverageMap(obj)], [obj] possibly absent.  A report is a well-formed map
    of file coverages; what the library does with a malformed one is not modelled. *)
Definition createCoverageMap (obj : option CoverageMap) : CoverageMap :=
  match obj with
  | Some m => m
  | None => ∅
  end.

(** [map.files()], i.e. [Object.keys(map.data)].  The keys come in the enumeration
    order of the finite map; [update] handles each file on its own, and the store it
    leaves does not depend on the order ([update_again]). *)
Definition files (m : CoverageMap) : list string := (map_to_list m).*1.

(** ** The store *)

Record TestPatternCoverage := {
  fileCoverage : option FileCoverage;
  isPass : option bool;
  testPattern : string
}.

Record TestPatternsCoverageMapProvider := {
  _fileNameToTestPatterns : gmap string (list string);
  _testPatternsToIsPass : gmap string bool;
  _testPatternsToMap : gmap string CoverageMap;
  _map : CoverageMap
}.

Abbreviation Store := TestPatternsCoverageMapProvider.

(** [Set.prototype.add] on the insertion-ordered element list *)
Definition Set_add (x : string) (s : list string) : list string :=
  if decide (x ∈ s) then s else s ++ [x].

(** *** Computations on the store that may throw *)

Inductive completion (A : Type) : Type :=
| Normal (a : A)
| Throw (message : string).
Arguments Normal {A} a.
Arguments Throw {A} message.

Definition Eff (A : Type) : Type := Store → completion A * Store.

Definition ret {A} (a : A) : Eff A := λ st, (Normal a, st).
Definition throw {A} (message : string) : Eff A := λ st, (Throw message, st).
Definition bind {A B} (m : Eff A) (k : A → Eff B) : Eff B :=
  λ st, match m st with
        | (Normal a, st') => k a st'
        | (Throw e, st') => (Throw e, st')
        end.
Definition get_store : Eff Store := λ st, (Normal st, st).
Definition modify (g : Store → Store) : Eff unit := λ st, (Normal tt, g st).

#[global] Instance Eff_ret : MRet Eff := @ret.
#[global] Instance Eff_bind : MBind Eff := λ A B k m, bind m k.

(** [xs.forEach(body)] *)
Fixpoint forEach {A} (body : A → Eff unit) (xs : list A) : Eff unit :=
  match xs with
  | [] => ret tt
  | x :: xs' => body x;; forEach body xs'
  end.

(** The store a computation leaves, whether it returned or threw. *)
Definition exec {A} (m : Eff A) (st : Store) : Store := (m st).2.

(** Whether the computation returned. *)
Definition returns {A} (m : Eff A) (st : Store) : Prop :=
  ∃ a, (m st).1 = Normal a.

Definition set_fileNameToTestPatterns (g : gmap string (list string) → gmap string (list string))
    (st : Store) : Store :=
  {| _fileNameToTestPatterns := g (_fileNameToTestPatterns st);
     _testPatternsToIsPass := _testPatternsToIsPass st;
     _testPatternsToMap := _testPatternsToMap st;
     _map := _map st |}.

Definition set_testPatternsToIsPass (g : gmap string bool → gmap string bool)
    (st : Store) : Store :=
  {| _fileNameToTestPatterns := _fileNameToTestPatterns st;
     _testPatternsToIsPass := g (_testPatternsToIsPass st);
     _testPatternsToMap := _testPatternsToMap st;
     _map := _map st |}.

Definition set_testPatternsToMap (g : gmap string CoverageMap → gmap string CoverageMap)
    (st : Store) : Store :=
  {| _fileNameToTestPatterns := _fileNameToTestPatterns st;
     _testPatternsToIsPass := _testPatternsToIsPass st;
     _testPatternsToMap := g (_testPatternsToMap st);
     _map := _map st |}.

(** [reset()]; the constructor calls it on the new object. *)
Definition reset : Eff unit :=
  modify (λ _, {| _fileNameToTestPatterns := ∅;
                  _testPatternsToIsPass := ∅;
                  _testPatternsToMap := ∅;
                  _map := createCoverageMap None |}).

Definition new_TestPatternsCoverageMapProvider : Store :=
  exec reset {| _fileNameToTestPatterns := ∅; _testPatternsToIsPass := ∅;
                _testPatternsToMap := ∅; _map := ∅ |}.

(** [map.fileCoverageFor(file)] *)
Definition fileCoverageFor (m : CoverageMap) (file : string) : Eff FileCoverage :=
  match m !! file with
  | Some fc => ret fc
  | None => throw ("No file coverage available for: " +:+ file)
  end.

(** [setFileCoverage(testPattern, filePath, map)] *)
Definition setFileCoverage (testPattern filePath : string) (map : CoverageMap) : Eff unit :=
  st ← get_store;
  (if _testPatternsToMap st !! testPattern is Some _ then ret tt
   else modify (set_testPatternsToMap <[testPattern := createCoverageMap None]>));;
  fc ← fileCoverageFor map filePath;
  modify (set_testPatternsToMap (alter <[filePath := fc]> testPattern)).

(** [getTestPatternFileCoverage(testPattern, filePath)] *)
Definition getTestPatternFileCoverage (st : Store) (testPattern filePath : string)
    : option FileCoverage :=
  match _testPatternsToMap st !! testPattern with
  | Some fileCoverage => fileCoverage !! filePath
  | None => None
  end.

(** [getTestPatternIsPass(testPattern)] *)
Definition getTestPatternIsPass (st : Store) (testPattern : string) : option bool :=
  _testPatternsToIsPass st !! testPattern.

(** [getFileCoverages(filePath)] *)
Definition getFileCoverages (st : Store) (filePath : string) : list TestPatternCoverage :=
  let testPatternSet := default [] (_fileNameToTestPatterns st !! filePath) in
  (λ testPattern,
     {| fileCoverage := getTestPatternFileCoverage st testPattern filePath;
        testPattern := testPattern;
        isPass := getTestPatternIsPass st testPattern |}) <$> testPatternSet.

(** What [Set.add] leaves in the index entry of a file. *)
Definition indexed (testPattern : string) (entry : option (list string)) : list string :=
  match entry with
  | Some s => Set_add testPattern s
  | None => [testPattern]
  end.

(** The store after the body of the [forEach] in [update] has run for the files
    of [l]: the pattern's map has taken the file coverages of [transformed], the
    index entries of the files hold the pattern. *)
Definition merged (testPattern : string) (transformed : CoverageMap)
    (l : list string) (st : Store) : Store :=
  {| _fileNameToTestPatterns :=
       foldl (λ ix file, <[file := indexed testPattern (ix !! file)]> ix)
             (_fileNameToTestPatterns st) l;
     _testPatternsToIsPass := _testPatternsToIsPass st;
     _testPatternsToMap :=
       alter (λ m, foldl (λ m file, if transformed !! file is Some fc
                                     then <[file := fc]> m else m) m l)
             testPattern (_testPatternsToMap st);
     _map := _map st |}.

Section Provider.

(** [this.mapStore.transformCoverage], the source-map store of
    istanbul-lib-source-maps: a coverage map goes in, the coverage map in the
    coordinates of the original sources comes out. *)
Variable transformCoverage : CoverageMap → CoverageMap.

(** [update(testPattern, isPass, obj)] *)
Definition update (testPattern : string) (isPass : bool) (obj : option CoverageMap)
    : Eff unit :=
  modify (set_testPatternsToIsPass <[testPattern := isPass]>);;
  let map := createCoverageMap obj in
  let transformed := transformCoverage map in
  st ← get_store;
  if _testPatternsToMap st !! testPattern is Some _ then
    forEach (λ fileName,
        st ← get_store;
        (match _fileNameToTestPatterns st !! fileName with
         | Some fileNameToTestPatternSet =>
             modify (set_fileNameToTestPatterns
                       <[fileName := Set_add testPattern fileNameToTestPatternSet]>)
         | None =>
             modify (set_fileNameToTestPatterns <[fileName := [testPattern]]>)
         end);;
        setFileCoverage testPattern fileName transformed)
      (files transformed)
  else
    modify (set_testPatternsToMap <[testPattern := transformed]>).

(** The store [update] leaves. *)
Definition updated (testPattern : string) (isPass : bool) (obj : option CoverageMap)
    (st : Store) : Store :=
  let transformed := transformCoverage (createCoverageMap obj) in
  let st1 := set_testPatternsToIsPass <[testPattern := isPass]> st in
  if _testPatternsToMap st !! testPattern is Some _
  then merged testPattern transformed (files transformed) st1
  else set_testPatternsToMap <[testPattern := transformed]> st1.

(** The stores the public mutators can produce from a new provider. *)
Inductive reachable : Store → Prop :=
| reachable_new : reachable new_TestPatternsCoverageMapProvider
| reachable_reset st : reachable st → reachable (exec reset st)
| reachable_update st testPattern isPass obj :
    reachable st →
    reachable (exec (update testPattern isPass obj) st)
| reachable_setFileCoverage st testPattern filePath map :
    reachable st →
    reachable (exec (setFileCoverage testPattern filePath map) st).

(** Every pattern of the reverse index has a coverage map. *)
Definition index_in_table (st : Store) : Prop :=
  ∀ file s testPattern,
    _fileNameToTestPatterns st !! file = Some s → testPattern ∈ s →
    is_Some (_testPatternsToMap st !! testPattern).

(** Every pattern of the reverse index has a verdict. *)
Definition index_has_verdict (st : Store) : Prop :=
  ∀ file s testPattern,
    _fileNameToTestPatterns st !! file = Some s → testPattern ∈ s →
    is_Some (_testPatternsToIsPass st !! testPattern).

End Provider.

(** ** The line scoring engine *)

Inductive CoverageStatus : Type :=
| Covered
| PartiallyCovered
| Uncovered.

#[global] Instance CoverageStatus_eq_dec : EqDecision CoverageStatus.
Proof. solve_decision. Defined.

Record LineHueCoverage := {
  numOfFailedTests : Z;
  numOfPassTests : Z;
  hue : option number;
  isCovered : bool
}.

Record TextDocument := { fileName : string; lineCount : Z }.
Record TextEditor := { document : TextDocument }.

(** [getFunctionCoverageByLine(fileCoverage)]: a line maps to the value of
    [fileCoverage.f[k]], possibly [undefined], of the last function that declares
    over it. *)
Definition getFunctionCoverageByLine (fileCoverage : FileCoverage) : gmap Z (option Z) :=
  foldl (λ lineCoverage '(k, fm),
           let hits := f fileCoverage !! k in
           foldl (λ lineCoverage idx, <[idx := hits]> lineCoverage) lineCoverage
             (seqZ (line (start (decl fm)))
                   (line (end_ (decl fm)) - line (start (decl fm)) + 1)))
        ∅ (fnMap fileCoverage).

(** The comparator handed to [statusList.sort]. *)
Definition compareSeverity (s1 s2 : CoverageStatus) : Z :=
  if decide (s1 = s2) then 0
  else match s1 with
       | Covered => 1
       | PartiallyCovered => if decide (s2 = Covered) then -1 else 1
       | Uncovered => -1
       end.

(** [s1] may stay in front of [s2] *)
Definition severity_le (s1 s2 : CoverageStatus) : Prop := compareSeverity s1 s2 ≤ 0.

#[global] Instance severity_le_dec : RelDecision severity_le.
Proof. intros s1 s2. unfold severity_le. apply _. Defined.

(** [statusList.sort(compare)] *)
Definition sortBySeverity (statusList : list CoverageStatus) : list CoverageStatus :=
  merge_sort severity_le statusList.

(** The candidate list of one entry at one line, as it is before the sort.
    [onNoCoverageInfo] is the result of the optional callback. *)
Definition statusList (fileCoverage : FileCoverage) (line : Z)
    (onNoCoverageInfo : option CoverageStatus) : list CoverageStatus :=
  let lc := getLineCoverage fileCoverage !! line in
  let bc := getBranchCoverageByLine fileCoverage !! line in
  let fc := mjoin (getFunctionCoverageByLine fileCoverage !! line) in
  let statusList := [] in
  let statusList :=
    match fc with
    | Some fc => statusList ++ [if bool_decide (0 < fc) then Covered else Uncovered]
    | None => statusList
    end in
  let statusList :=
    match bc with
    | Some bc => statusList ++ [if is_zero (coverage bc) then Uncovered else Covered]
    | None => statusList
    end in
  let statusList :=
    match lc with
    | Some lc => statusList ++ [if bool_decide (0 < lc) then Covered else Uncovered]
    | None => statusList
    end in
  let statusList :=
    match onNoCoverageInfo with
    | Some s => if bool_decide (length statusList ≤ 0)%nat then statusList ++ [s] else statusList
    | None => statusList
    end in
  let statusList :=
    if bool_decide (length statusList ≤ 0)%nat then statusList ++ [Uncovered] else statusList in
  statusList.

(** [statusList[0]] after the sort *)
Definition lineStatus (fileCoverage : FileCoverage) (line : Z)
    (onNoCoverageInfo : option CoverageStatus) : option CoverageStatus :=
  head (sortBySeverity (statusList fileCoverage line onNoCoverageInfo)).

(** The body of [fileCoverages.forEach] at [line], on the pair
    [(numOfPassTests, numOfFailedTests)]. *)
Definition tally (line : Z) (onNoCoverageInfo : option CoverageStatus)
    (counts : Z * Z) (c : TestPatternCoverage) : Z * Z :=
  let '(numOfPassTests, numOfFailedTests) := counts in
  match fileCoverage c with
  | Some fileCoverage =>
      let status := lineStatus fileCoverage line onNoCoverageInfo in
      if status is Some Covered then
        if isPass c is Some true then (numOfPassTests + 1, numOfFailedTests)
        else (numOfPassTests, numOfFailedTests + 1)
      else (numOfPassTests, numOfFailedTests)
  | None => (numOfPassTests, numOfFailedTests)
  end.

(** The record the first loop sets for [line]. *)
Definition lineRecord (fileCoverages : list TestPatternCoverage) (line : Z)
    (onNoCoverageInfo : option CoverageStatus) : LineHueCoverage :=
  let '(numOfPassTests, numOfFailedTests) :=
    foldl (tally line onNoCoverageInfo) (0, 0) fileCoverages in
  {| numOfFailedTests := numOfFailedTests;
     numOfPassTests := numOfPassTests;
     hue := None;
     isCovered := bool_decide (0 < numOfFailedTests + numOfPassTests) |}.

(** The record the second loop sets in place of [currentHue]. *)
Definition withHue (totalSuccess totalFailed : Z) (currentHue : LineHueCoverage)
    : LineHueCoverage :=
  {| numOfFailedTests := numOfFailedTests currentHue;
     numOfPassTests := numOfPassTests currentHue;
     hue := if isCovered currentHue then
              Some (add (of_Z 0)
                      (div (div (of_Z (numOfPassTests currentHue)) (of_Z totalSuccess))
                         (add (div (of_Z (numOfPassTests currentHue)) (of_Z totalSuccess))
                              (div (of_Z (numOfFailedTests currentHue)) (of_Z totalFailed)))))
            else None;
     isCovered := isCovered currentHue |}.

(** [lineCoverages(editor, onNoCoverageInfo)] of a formatter whose
    [coverageMapProvider] is [coverageMapProvider]; the result is the
    [Map<number, LineHueCoverage>]. *)
Definition lineCoverages (coverageMapProvider : Store) (editor : TextEditor)
    (onNoCoverageInfo : option CoverageStatus) : gmap Z LineHueCoverage :=
  let fileCoverages := getFileCoverages coverageMapProvider (fileName (document editor)) in
  let totalSuccess :=
    foldl (λ p c, p + (if isPass c is Some true then 1 else 0)) 0 fileCoverages in
  let totalFailed :=
    foldl (λ p c, p + (if isPass c is Some false then 1 else 0)) 0 fileCoverages in
  let lineToCoverage :=
    foldl (λ lineToCoverage line,
             <[line := lineRecord fileCoverages line onNoCoverageInfo]> lineToCoverage)
          ∅ (seqZ 1 (lineCount (document editor))) in
  withHue totalSuccess totalFailed <$> lineToCoverage.

(** The severity scale of the statuses: uncovered above partially-covered above
    covered. *)
Definition severity (s : CoverageStatus) : nat :=
  match s with
  | Uncovered => 2
  | PartiallyCovered => 1
  | Covered => 0
  end.

(** The number of entries with verdict [verdict]. *)
Definition runsWithVerdict (verdict : bool) (entries : list TestPatternCoverage) : Z :=
  Z.of_nat (length (filter (λ c, isPass c = Some verdict) entries)).

(** The score as the specification writes it, from the two tallies of a line and
    the two totals of the file. *)
Definition score (numPassedRuns numFailedRuns totalPassedRuns totalFailedRuns : Z) : number :=
  div (div (of_Z numPassedRuns) (of_Z totalPassedRuns))
      (add (div (of_Z numPassedRuns) (of_Z totalPassedRuns))
           (div (of_Z numFailedRuns) (of_Z totalFailedRuns))).

(** ** The two-pattern scenario *)

(** [rounds] rounds of reports, each round reporting pattern [pA] as passed with
    coverage [covA] and then pattern [pB] as failed with coverage [covB]. *)
Fixpoint reports (transformCoverage : CoverageMap → CoverageMap)
    (pA : string) (covA : option CoverageMap) (pB : string) (covB : option CoverageMap)
    (rounds : nat) (st : Store) : Store :=
  match rounds with
  | O => st
  | S rounds =>
      reports transformCoverage pA covA pB covB rounds
        (exec (update transformCoverage pB false covB)
           (exec (update transformCoverage pA true covA) st))
  end.

(** The per-line result the scenario expects: line 10 with one passed and one
    failed run and hue 0.5, line 20 with one passed run, no failed run and hue 1. *)
Definition scenarioOutcome (result : gmap Z LineHueCoverage) : Prop :=
  (∃ r, result !! 10 = Some r
        ∧ numOfPassTests r = 1 ∧ numOfFailedTests r = 1
        ∧ hue r = Some (Fin (Q2Qc (1 # 2))))
  ∧ (∃ r, result !! 20 = Some r
          ∧ numOfPassTests r = 1 ∧ numOfFailedTests r = 0
          ∧ hue r = Some (Fin 1%Qc)).

Module Scenario.

(** Without registered source maps and input source maps the source-map store
    returns the coverage map it is given. *)
Definition noSourceMaps : CoverageMap → CoverageMap := id.

(** A file coverage with statement hit counts only. *)
Definition statements (path : string) (hits : list (Z * Z)) : FileCoverage :=
  {| path := path; fnMap := []; f := ∅;
     getLineCoverage := list_to_map hits; getBranchCoverageByLine := ∅ |}.

Definition covA : CoverageMap := {[ "f.ts" := statements "f.ts" [(10, 1); (20, 1)] ]}.
Definition covB : CoverageMap := {[ "f.ts" := statements "f.ts" [(10, 3); (20, 0)] ]}.

Definition editor : TextEditor :=
  {| document := {| fileName := "f.ts"; lineCount := 25 |} |}.

Definition reportedOnce : Store :=
  reports noSourceMaps "A" (Some covA) "B" (Some covB) 1
    new_TestPatternsCoverageMapProvider.

Definition reportedTwice : Store :=
  reports noSourceMaps "A" (Some covA) "B" (Some covB) 2
    new_TestPatternsCoverageMapProvider.

(** A function declared over lines 3 to 4 and never called, with a statement on
    line 3 that ran 5 times. *)
Definition uncalled : FileCoverage :=
  {| path := "g.ts";
     fnMap := [("0", {| name := "g";
                        decl := {| start := {| line := 3; column := 0 |};
                                   end_ := {| line := 4; column := 1 |} |} |})];
     f := {[ "0" := 0 ]};
     getLineCoverage := {[ 3 := 5 ]};
     getBranchCoverageByLine := ∅ |}.

End Scenario.

(** ** Further operations of the store *)

(** [get map()] *)
Definition get_map (st : Store) : CoverageMap := _map st.

(** The counters [(numOfPassTests, numOfFailedTests)] of [getSummary(filePath)]
    after its [forEach]. *)
Definition summaryCounts (st : Store) (filePath : string) : Z * Z :=
  foldl (λ '(numOfPassTests, numOfFailedTests) c,
           if isPass c is Some true then (numOfPassTests + 1, numOfFailedTests)
           else if isPass c is Some false then (numOfPassTests, numOfFailedTests + 1)
           else (numOfPassTests, numOfFailedTests))
        (0, 0) (getFileCoverages st filePath).

(** [getSummary(filePath)]; the counters print in decimal. *)
Definition getSummary (st : Store) (filePath : string) : string :=
  let '(numOfPassTests, numOfFailedTests) := summaryCounts st filePath in
  "No. Failed Tests: " +:+ pretty numOfFailedTests
    +:+ " No. Pass Tests: " +:+ pretty numOfPassTests.

(** The patterns of the entries [getFileCoverages] returns. *)
Definition indexedPatterns (st : Store) (filePath : string) : list string :=
  testPattern <$> getFileCoverages st filePath.

(** A sequence of [update] calls, run one after the other. *)
Definition updates (transformCoverage : CoverageMap → CoverageMap)
    (calls : list (string * bool * option CoverageMap)) (st : Store) : Store :=
  foldl (λ st '(testPattern, isPass, obj),
           exec (update transformCoverage testPattern isPass obj) st) st calls.

(** Every pattern indexed against a file has a coverage stored for that file. *)
Definition index_has_coverage (st : Store) : Prop :=
  ∀ file s testPattern,
    _fileNameToTestPatterns st !! file = Some s → testPattern ∈ s →
    is_Some (getTestPatternFileCoverage st testPattern file).

(** The record of a line that no run covers. *)
Definition uncoveredLine : LineHueCoverage :=
  {| numOfFailedTests := 0; numOfPassTests := 0; hue := None; isCovered := false |}.

(** Whether the declaration of the function mapping [fm] extends over line [L]. *)
Definition declaredOver (L : Z) (fm : FunctionMapping) : Prop :=
  line (start (decl fm)) ≤ L ≤ line (end_ (decl fm)).

(** ** The code lenses of the covered lines (TestPatternsCoverageCodeLensProvider.ts,
    kept as src/unnamed/part_004) *)

Module CodeLenses.

(** [vscode.Position], [vscode.Range], [vscode.Command] and [vscode.CodeLens], with
    the fields the code reads and writes.  Line numbers are those of positions that
    exist, so they are not checked against 0 again. *)
Record Position := { line : Z; character : Z }.
Record Range := { start : Position; end_ : Position }.
Record Command := { title : string; command : string }.

(** [command_] is the optional [command] of a code lens. *)
Record CodeLens := { range : Range; command_ : option Command }.

(** [new vscode.Range(startLine, startCharacter, endLine, endCharacter)]; the code
    builds ranges whose two positions coincide. *)
Definition Range_new (startLine startCharacter endLine endCharacter : Z) : Range :=
  {| start := {| line := startLine; character := startCharacter |};
     end_ := {| line := endLine; character := endCharacter |} |}.

(** [codelens.command?.title] *)
Definition titleOf (codelens : CodeLens) : option string := title <$> command_ codelens.

(** The condition the loop negates: the two lenses have the same title and the
    second starts on the line after the one the first ends on. *)
Definition continues (current next : CodeLens) : bool :=
  bool_decide (titleOf current = titleOf next)
  && bool_decide (line (end_ (range current)) = line (start (range next)) - 1).

(** The loop of [compressCodeLenses], from an index on: [codelenses] is what is
    left of the array from [codelenses[i]], [firstLine] the variable of that name;
    the result is what the remaining iterations push. *)
Fixpoint compressFrom (firstLine : Z) (codelenses : list CodeLens) : list CodeLens :=
  match codelenses with
  | currentCodelen :: ((next :: _) as rest) =>
      if negb (continues currentCodelen next) then
        match titleOf currentCodelen with
        | Some t =>
            {| range := Range_new firstLine 0 firstLine 0;
               command_ := Some {| title := t; command := "" |} |}
              :: compressFrom (line (start (range next))) rest
        | None => compressFrom firstLine rest
        end
      else compressFrom firstLine rest
  | _ => []
  end.

(** [compressCodeLenses(codelenses)] *)
Definition compressCodeLenses (codelenses : list CodeLens) : list CodeLens :=
  match codelenses with
  | [] => []
  | first :: _ => compressFrom (line (start (range first))) codelenses
  end.

(** Every lens continues the one before it. *)
Definition oneRun (codelenses : list CodeLens) : Prop :=
  ∀ i current next,
    codelenses !! i = Some current → codelenses !! S i = Some next →
    continues current next = true.

End CodeLenses.

(** ** The debug configuration provider (DebugConfigurationProvider.ts, kept as
    src/unnamed/part_000) *)

Module DebugConfig.

(** A [vscode.DebugConfiguration] with the properties the provider reads or writes;
    an absent property is [None]. *)
Record DebugConfiguration := {
  type : string;
  name : string;
  request : string;
  args : option (list string);
  env : option (gmap string string);
  cwd : option string;
  console : option string;
  internalConsoleOptions : option string;
  runtimeExecutable : option string;
  program : option string;
  protocol : option string
}.

Record DebugConfigurationProvider := {
  fileNameToRun : string;
  testToRun : string
}.

Definition set_args (args' : option (list string)) (c : DebugConfiguration)
    : DebugConfiguration :=
  {| type := type c; name := name c; request := request c; args := args';
     env := env c; cwd := cwd c; console := console c;
     internalConsoleOptions := internalConsoleOptions c;
     runtimeExecutable := runtimeExecutable c; program := program c;
     protocol := protocol c |}.

Definition set_env (env' : option (gmap string string)) (c : DebugConfiguration)
    : DebugConfiguration :=
  {| type := type c; name := name c; request := request c; args := args c;
     env := env'; cwd := cwd c; console := console c;
     internalConsoleOptions := internalConsoleOptions c;
     runtimeExecutable := runtimeExecutable c; program := program c;
     protocol := protocol c |}.

(** [prepareTestRun(fileNameToRun, testToRun)] *)
Definition prepareTestRun (this : DebugConfigurationProvider)
    (fileNameToRun testToRun : string) : DebugConfigurationProvider :=
  {| fileNameToRun := fileNameToRun; testToRun := testToRun |}.

(** [resolveDebugConfiguration(_folder, debugConfiguration, _token)].  The result
    is the completion, the [debugConfiguration] object as the call leaves it (the
    value returned when the call returns) and the provider as the call leaves it.
    [push] on an absent [args] throws a [TypeError]. *)
Definition resolveDebugConfiguration (this : DebugConfigurationProvider)
    (debugConfiguration : DebugConfiguration)
    : completion unit * DebugConfiguration * DebugConfigurationProvider :=
  if bool_decide (name debugConfiguration ≠ "vscode-jest-tests") then
    (Normal tt, debugConfiguration, this)
  else
    let debugConfiguration :=
      if env debugConfiguration is Some _ then debugConfiguration
      else set_env (Some ∅) debugConfiguration in
    let debugConfiguration :=
      set_env (Some (<["CI" := "vscode-jest-tests"]> (default ∅ (env debugConfiguration))))
        debugConfiguration in
    if bool_decide (fileNameToRun this ≠ "") then
      match args debugConfiguration with
      | None => (Throw "TypeError", debugConfiguration, this)
      | Some args0 =>
          let args1 := args0 ++ [fileNameToRun this] in
          let args2 :=
            if bool_decide (testToRun this ≠ "")
            then (args1 ++ ["--testNamePattern"]) ++ [testToRun this]
            else args1 in
          (Normal tt, set_args (Some args2) debugConfiguration,
           {| fileNameToRun := ""; testToRun := "" |})
      end
    else (Normal tt, debugConfiguration, this).

(** [provideDebugConfigurations(folder, _token)].  [craCommand] is the value of
    [folder && getCRATestCommand(folder.uri.fsPath).split(' ')], the helper
    [getCRATestCommand] being outside these sources: [None] without a folder, else
    the words of the command. *)
Definition provideDebugConfigurations (craCommand : option (list string))
    : list DebugConfiguration :=
  let debugConfiguration :=
    {| type := "node"; name := "vscode-jest-tests"; request := "launch";
       args := Some ["--runInBand"]; env := None;
       cwd := Some "${workspaceFolder}";
       console := Some "integratedTerminal";
       internalConsoleOptions := Some "neverOpen";
       runtimeExecutable := None; program := None; protocol := None |} in
  match craCommand with
  | Some (first :: rest) =>
      if bool_decide (first ≠ "") then
        [ {| type := type debugConfiguration; name := name debugConfiguration;
             request := request debugConfiguration;
             args := Some (rest ++ default [] (args debugConfiguration));
             env := env debugConfiguration; cwd := cwd debugConfiguration;
             console := console debugConfiguration;
             internalConsoleOptions := internalConsoleOptions debugConfiguration;
             runtimeExecutable := Some ("${workspaceFolder}/node_modules/.bin/" +:+ first);
             program := None;
             protocol := Some "inspector" |} ]
      else
        [ {| type := type debugConfiguration; name := name debugConfiguration;
             request := request debugConfiguration;
             args := args debugConfiguration;
             env := env debugConfiguration; cwd := cwd debugConfiguration;
             console := console debugConfiguration;
             internalConsoleOptions := internalConsoleOptions debugConfiguration;
             runtimeExecutable := None;
             program := Some "${workspaceFolder}/node_modules/jest/bin/jest";
             protocol := None |} ]
  | _ =>
      [ {| type := type debugConfiguration; name := name debugConfiguration;
           request := request debugConfiguration;
           args := args debugConfiguration;
           env := env debugConfiguration; cwd := cwd debugConfiguration;
           console := console debugConfiguration;
           internalConsoleOptions := internalConsoleOptions debugConfiguration;
           runtimeExecutable := None;
           program := Some "${workspaceFolder}/node_modules/jest/bin/jest";
           protocol := None |} ]
  end.

End DebugConfig.

(** ** Concrete inputs for the further properties *)

Module Examples.

(** Pattern A reported twice as passed, and no other pattern. *)
Definition onlyPassing : Store :=
  updates Scenario.noSourceMaps
    [("A", true, Some Scenario.covA); ("A", true, Some Scenario.covA)]
    new_TestPatternsCoverageMapProvider.

(** A code lens on one line, as [provideCodeLenses] builds them. *)
Definition lensOn (lineNumber : Z) (title : string) : CodeLenses.CodeLens :=
  {| CodeLenses.range := CodeLenses.Range_new (lineNumber - 1) 0 (lineNumber - 1) 0;
     CodeLenses.command_ :=
       Some {| CodeLenses.title := title; CodeLenses.command := "" |} |}.

(** A launch configuration of the extension without [args]. *)
Definition withoutArgs : DebugConfig.DebugConfiguration :=
  {| DebugConfig.type := "node"; DebugConfig.name := "vscode-jest-tests";
     DebugConfig.request := "launch"; DebugConfig.args := None;
     DebugConfig.env := Some {[ "NODE_ENV" := "test" ]};
     DebugConfig.cwd := None; DebugConfig.console := None;
     DebugConfig.internalConsoleOptions := None;
     DebugConfig.runtimeExecutable := None; DebugConfig.program := None;
     DebugConfig.protocol := None |}.

(** The same configuration with one argument. *)
Definition withArgs : DebugConfig.DebugConfiguration :=
  DebugConfig.set_args (Some ["--runInBand"]) withoutArgs.

Definition idle : DebugConfig.DebugConfigurationProvider :=
  {| DebugConfig.fileNameToRun := ""; DebugConfig.testToRun := "" |}.

End Examples.

(** * Properties of the store *)

Lemma elem_of_Set_add x y s : x ∈ Set_add y s ↔ x = y ∨ x ∈ s.
Proof.
  unfold Set_add. case_decide as Hy.
  - split; [by right|]. by intros [->|?].
  - rewrite elem_of_app, list_elem_of_singleton. tauto.
Qed.

Lemma NoDup_Set_add x s : NoDup s → NoDup (Set_add x s).
Proof.
  intros Hs. unfold Set_add. case_decide; [done|].
  apply NoDup_app. split_and!; [done| |apply NoDup_singleton].
  intros y Hy ->%list_elem_of_singleton. done.
Qed.

Lemma elem_of_indexed x y entry :
  x ∈ indexed y entry ↔ x = y ∨ ∃ s, entry = Some s ∧ x ∈ s.
Proof.
  destruct entry as [s|]; simpl.
  - rewrite elem_of_Set_add. split.
    + intros [->|Hx]; [by left|right; eauto].
    + intros [->|(s' & [= <-] & Hx)]; [by left|by right].
  - rewrite list_elem_of_singleton. split.
    + intros ->. by left.
    + by intros [->|(s' & [=] & _)].
Qed.

Lemma elem_of_files (m : CoverageMap) file : file ∈ files m ↔ is_Some (m !! file).
Proof.
  unfold files. rewrite list_elem_of_fmap. split.
  - intros [[k fc] [-> Hin%elem_of_map_to_list]]. by exists fc.
  - intros [fc Hfc]. exists (file, fc). split; [done|]. by apply elem_of_map_to_list.
Qed.

Lemma NoDup_files (m : CoverageMap) : NoDup (files m).
Proof. apply NoDup_fst_map_to_list. Qed.

Section ProviderFacts.

Variable transformCoverage : CoverageMap → CoverageMap.

Lemma setFileCoverage_present testPattern filePath (map m : CoverageMap) fc st :
  _testPatternsToMap st !! testPattern = Some m →
  map !! filePath = Some fc →
  setFileCoverage testPattern filePath map st =
    (Normal tt, set_testPatternsToMap (alter <[filePath := fc]> testPattern) st).
Proof.
  intros Hm Hfc. unfold setFileCoverage, mbind, Eff_bind, bind, get_store; simpl.
  rewrite Hm; simpl. unfold fileCoverageFor. rewrite Hfc. reflexivity.
Qed.

Lemma forEach_merge testPattern (transformed : CoverageMap) l st :
  is_Some (_testPatternsToMap st !! testPattern) →
  (∀ file, file ∈ l → is_Some (transformed !! file)) →
  forEach (λ fileName,
      st ← get_store;
      (match _fileNameToTestPatterns st !! fileName with
       | Some fileNameToTestPatternSet =>
           modify (set_fileNameToTestPatterns
                     <[fileName := Set_add testPattern fileNameToTestPatternSet]>)
       | None =>
           modify (set_fileNameToTestPatterns <[fileName := [testPattern]]>)
       end);;
      setFileCoverage testPattern fileName transformed) l st
  = (Normal tt, merged testPattern transformed l st).
Proof.
  revert st. induction l as [|file l IH]; intros st [m Hm] Hl.
  - simpl. unfold ret, merged. destruct st; simpl. f_equal. f_equal.
    symmetry. apply map_eq. intros k. simpl in Hm.
    destruct (decide (testPattern = k)) as [<-|Hne].
    + by rewrite lookup_alter_eq, Hm.
    + by rewrite lookup_alter_ne.
  - destruct (Hl file) as [fc Hfc]; [apply list_elem_of_here|].
    cbn [forEach]. unfold mbind at 1, Eff_bind at 1, bind at 1.
    unfold mbind at 1, Eff_bind at 1, bind at 1, get_store at 1.
    unfold mbind at 1, Eff_bind at 1, bind at 1.
    set (st1 := set_fileNameToTestPatterns
                  <[file := indexed testPattern (_fileNameToTestPatterns st !! file)]> st).
    assert (Hstep :
      (match _fileNameToTestPatterns st !! file with
       | Some s => modify (set_fileNameToTestPatterns <[file := Set_add testPattern s]>)
       | None => modify (set_fileNameToTestPatterns <[file := [testPattern]]>)
       end) st = (Normal tt, st1)).
    { subst st1. by destruct (_fileNameToTestPatterns st !! file). }
    rewrite Hstep.
    rewrite (setFileCoverage_present _ _ _ m fc) by done.
    rewrite IH.
    + f_equal. unfold merged; simpl. f_equal.
      apply map_eq. intros k. destruct (decide (testPattern = k)) as [<-|Hne].
      * rewrite !lookup_alter_eq, Hm. simpl. by rewrite Hfc.
      * by rewrite !lookup_alter_ne.
    + simpl. rewrite lookup_alter_eq, Hm. by eexists.
    + intros g Hg. apply Hl. by apply list_elem_of_further.
Qed.

Lemma lookup_index_fold testPattern (ix : gmap string (list string)) l file :
  NoDup l →
  foldl (λ ix file, <[file := indexed testPattern (ix !! file)]> ix) ix l !! file =
    if decide (file ∈ l) then Some (indexed testPattern (ix !! file)) else ix !! file.
Proof.
  intros Hl. revert ix. induction Hl as [|g l Hg Hl IH]; intros ix; cbn [foldl].
  - by rewrite decide_False by apply not_elem_of_nil.
  - rewrite IH. destruct (decide (file = g)) as [->|Hne].
    + rewrite (decide_False _ _ Hg), lookup_insert_eq.
      by rewrite decide_True by apply list_elem_of_here.
    + rewrite lookup_insert_ne by done.
      destruct (decide (file ∈ l)) as [Hin|Hin].
      * by rewrite decide_True by by apply list_elem_of_further.
      * rewrite decide_False; [done|]. rewrite elem_of_cons. tauto.
Qed.

Lemma coverage_fold_union (transformed m : CoverageMap) :
  foldl (λ m file, if transformed !! file is Some fc then <[file := fc]> m else m)
        m (files transformed)
  = transformed ∪ m.
Proof.
  assert (Hgen : ∀ l file (m : CoverageMap),
    foldl (λ m file, if transformed !! file is Some fc then <[file := fc]> m else m)
          m l !! file
    = if decide (file ∈ l) then
        (if transformed !! file is Some fc then Some fc else m !! file)
      else m !! file).
  { induction l as [|g l IH]; intros file m'; cbn [foldl].
    - by rewrite decide_False by apply not_elem_of_nil.
    - rewrite IH. destruct (decide (file = g)) as [->|Hne].
      + rewrite (decide_True _ _ (list_elem_of_here g l)).
        destruct (transformed !! g) as [fc|] eqn:Hfc.
        * rewrite lookup_insert_eq. by case_decide.
        * by case_decide.
      + assert (Hm' : (if transformed !! g is Some fc then <[g := fc]> m' else m') !! file
                      = m' !! file).
        { destruct (transformed !! g); [by rewrite lookup_insert_ne|done]. }
        rewrite Hm'.
        destruct (decide (file ∈ l)) as [Hin|Hin].
        * by rewrite decide_True by by apply list_elem_of_further.
        * rewrite decide_False; [done|]. rewrite elem_of_cons. tauto. }
  apply map_eq. intros file. rewrite Hgen, lookup_union.
  destruct (decide (file ∈ files transformed)) as [Hin|Hin].
  - apply elem_of_files in Hin as [fc Hfc]. rewrite Hfc. by destruct (m !! file).
  - rewrite elem_of_files, <-eq_None_not_Some in Hin. rewrite Hin.
    by destruct (m !! file).
Qed.

Lemma update_eq testPattern isPass obj st :
  update transformCoverage testPattern isPass obj st = (Normal tt, updated transformCoverage testPattern isPass obj st).
Proof.
  unfold update, updated.
  unfold mbind at 1, Eff_bind at 1, bind at 1, modify at 1.
  unfold mbind at 1, Eff_bind at 1, bind at 1, get_store at 1.
  cbn [_testPatternsToMap set_testPatternsToIsPass].
  destruct (_testPatternsToMap st !! testPattern) as [m|] eqn:Hm; [|done].
  apply forEach_merge.
  - simpl. rewrite Hm. by eexists.
  - intros file. by rewrite elem_of_files.
Qed.

Lemma update_returns testPattern isPass obj st :
  returns (update transformCoverage testPattern isPass obj) st.
Proof. exists tt. by rewrite update_eq. Qed.

Lemma exec_update testPattern isPass obj st :
  exec (update transformCoverage testPattern isPass obj) st = updated transformCoverage testPattern isPass obj st.
Proof. unfold exec. by rewrite update_eq. Qed.

Lemma update_verdicts testPattern isPass obj st :
  _testPatternsToIsPass (exec (update transformCoverage testPattern isPass obj) st)
  = <[testPattern := isPass]> (_testPatternsToIsPass st).
Proof.
  rewrite exec_update. unfold updated.
  by destruct (_testPatternsToMap st !! testPattern).
Qed.

Lemma update_first testPattern isPass obj st :
  _testPatternsToMap st !! testPattern = None →
  _testPatternsToMap (exec (update transformCoverage testPattern isPass obj) st)
    = <[testPattern := transformCoverage (createCoverageMap obj)]> (_testPatternsToMap st)
  ∧ _fileNameToTestPatterns (exec (update transformCoverage testPattern isPass obj) st)
    = _fileNameToTestPatterns st.
Proof. intros Hm. rewrite exec_update. unfold updated. by rewrite Hm. Qed.

Lemma update_again testPattern isPass obj st m :
  _testPatternsToMap st !! testPattern = Some m →
  _testPatternsToMap (exec (update transformCoverage testPattern isPass obj) st)
    = <[testPattern := transformCoverage (createCoverageMap obj) ∪ m]> (_testPatternsToMap st)
  ∧ ∀ file,
      _fileNameToTestPatterns (exec (update transformCoverage testPattern isPass obj) st) !! file
      = if transformCoverage (createCoverageMap obj) !! file is Some _
        then Some (indexed testPattern (_fileNameToTestPatterns st !! file))
        else _fileNameToTestPatterns st !! file.
Proof.
  intros Hm. rewrite exec_update. unfold updated. rewrite Hm. simpl. split.
  - apply map_eq. intros k. destruct (decide (testPattern = k)) as [<-|Hne].
    + rewrite lookup_alter_eq, Hm, lookup_insert_eq. simpl.
      by rewrite coverage_fold_union.
    + by rewrite lookup_alter_ne, lookup_insert_ne.
  - intros file. rewrite lookup_index_fold by apply NoDup_files.
    destruct (decide (file ∈ files (transformCoverage (createCoverageMap obj))))
      as [Hin|Hin].
    + apply elem_of_files in Hin as [fc Hfc]. by rewrite Hfc.
    + rewrite elem_of_files, <-eq_None_not_Some in Hin. by rewrite Hin.
Qed.

Lemma setFileCoverage_frame testPattern filePath (map : CoverageMap) st :
  _fileNameToTestPatterns (exec (setFileCoverage testPattern filePath map) st)
    = _fileNameToTestPatterns st
  ∧ _testPatternsToIsPass (exec (setFileCoverage testPattern filePath map) st)
    = _testPatternsToIsPass st
  ∧ ∀ q, is_Some (_testPatternsToMap st !! q) →
         is_Some (_testPatternsToMap (exec (setFileCoverage testPattern filePath map) st) !! q).
Proof.
  unfold exec, setFileCoverage, mbind, Eff_bind, bind, get_store, fileCoverageFor.
  destruct (_testPatternsToMap st !! testPattern) as [m|] eqn:Hm;
    destruct (map !! filePath) as [fc|] eqn:Hfc; simpl; split_and!; try done.
  - intros q Hq. by apply lookup_alter_is_Some.
  - intros q Hq. apply lookup_alter_is_Some, lookup_insert_is_Some'. by right.
  - intros q Hq. apply lookup_insert_is_Some'. by right.
Qed.

Lemma index_in_table_reset st : index_in_table (exec reset st).
Proof. intros file s q Hs. cbv [new_TestPatternsCoverageMapProvider exec reset modify snd] in Hs. cbn [_fileNameToTestPatterns] in Hs.
    by rewrite lookup_empty in Hs. Qed.

Lemma index_in_table_update st testPattern isPass obj :
  index_in_table st →
  index_in_table (exec (update transformCoverage testPattern isPass obj) st).
Proof.
  intros Hinv file s q Hs Hq.
  destruct (_testPatternsToMap st !! testPattern) as [m|] eqn:Hm.
  - destruct (update_again testPattern isPass obj st m Hm) as [Ht Hix].
    rewrite Ht. apply lookup_insert_is_Some'.
    rewrite Hix in Hs.
    destruct (transformCoverage (createCoverageMap obj) !! file); [|right; eauto].
    injection Hs as <-. apply elem_of_indexed in Hq as [->|(s' & Hs' & Hq)]; [by left|].
    right; eauto.
  - destruct (update_first testPattern isPass obj st Hm) as [Ht Hix].
    rewrite Ht. apply lookup_insert_is_Some'. rewrite Hix in Hs. right; eauto.
Qed.

Lemma index_in_table_setFileCoverage st testPattern filePath map :
  index_in_table st →
  index_in_table (exec (setFileCoverage testPattern filePath map) st).
Proof.
  intros Hinv file s q Hs Hq.
  destruct (setFileCoverage_frame testPattern filePath map st) as (Hix & _ & Ht).
  rewrite Hix in Hs. apply Ht. eauto.
Qed.

Lemma index_has_verdict_update st testPattern isPass obj :
  index_has_verdict st →
  index_has_verdict (exec (update transformCoverage testPattern isPass obj) st).
Proof.
  intros Hinv file s q Hs Hq. rewrite update_verdicts. apply lookup_insert_is_Some'.
  destruct (_testPatternsToMap st !! testPattern) as [m|] eqn:Hm.
  - destruct (update_again testPattern isPass obj st m Hm) as [_ Hix].
    rewrite Hix in Hs.
    destruct (transformCoverage (createCoverageMap obj) !! file); [|right; eauto].
    injection Hs as <-. apply elem_of_indexed in Hq as [->|(s' & Hs' & Hq)]; [by left|].
    right; eauto.
  - destruct (update_first testPattern isPass obj st Hm) as [_ Hix].
    rewrite Hix in Hs. right; eauto.
Qed.

Lemma reachable_index_in_table st : reachable transformCoverage st → index_in_table st.
Proof.
  induction 1;
    eauto using index_in_table_reset, index_in_table_update,
                index_in_table_setFileCoverage.
Qed.

Lemma reachable_index_has_verdict st : reachable transformCoverage st → index_has_verdict st.
Proof.
  induction 1 as [|st _ _|st q v obj _ IH|st q g map _ IH].
  - intros file s q Hs. cbv [new_TestPatternsCoverageMapProvider exec reset modify snd] in Hs. cbn [_fileNameToTestPatterns] in Hs.
    by rewrite lookup_empty in Hs.
  - intros file s q Hs. cbv [new_TestPatternsCoverageMapProvider exec reset modify snd] in Hs. cbn [_fileNameToTestPatterns] in Hs.
    by rewrite lookup_empty in Hs.
  - by apply index_has_verdict_update.
  - intros file s q' Hs Hq.
    destruct (setFileCoverage_frame q g map st) as (Hix & Hv & _).
    rewrite Hv. rewrite Hix in Hs. eauto.
Qed.

Lemma elem_of_getFileCoverages st filePath c :
  c ∈ getFileCoverages st filePath ↔
  ∃ s q, _fileNameToTestPatterns st !! filePath = Some s ∧ q ∈ s ∧
         c = {| fileCoverage := getTestPatternFileCoverage st q filePath;
                isPass := getTestPatternIsPass st q;
                testPattern := q |}.
Proof.
  unfold getFileCoverages. rewrite list_elem_of_fmap.
  destruct (_fileNameToTestPatterns st !! filePath) as [s|]; simpl.
  - split.
    + intros (q & -> & Hq). eauto.
    + intros (s' & q & [= <-] & Hq & ->). eauto.
  - split.
    + intros (q & _ & Hq). by apply not_elem_of_nil in Hq.
    + intros (s' & q & [=] & _).
Qed.

(** ** Claims about the store *)

(** C2 (reverse-index timing).  In a reachable store, for a pattern [p] that has
    no coverage map yet and whose transformed coverage has file [f]: after one
    [update] for [p], [getFileCoverages f] has no entry for [p]; after a second
    [update] for [p] whose coverage has [f], it has the entry for [p], carrying the
    second report's file coverage and verdict. *)
Theorem C2_reverse_index_timing st p v1 v2 cov1 cov2 f fc1 fc2 :
  reachable transformCoverage st →
  _testPatternsToMap st !! p = None →
  transformCoverage (createCoverageMap cov1) !! f = Some fc1 →
  transformCoverage (createCoverageMap cov2) !! f = Some fc2 →
  let st1 := exec (update transformCoverage p v1 cov1) st in
  let st2 := exec (update transformCoverage p v2 cov2) st1 in
  (p ∉ testPattern <$> getFileCoverages st1 f)
  ∧ ({| fileCoverage := Some fc2; isPass := Some v2; testPattern := p |}
       ∈ getFileCoverages st2 f).
Proof.
  intros Hreach Hfresh Hf1 Hf2 st1 st2.
  destruct (update_first p v1 cov1 st Hfresh) as [Ht1 Hix1]. fold st1 in Ht1, Hix1.
  assert (Hp1 : _testPatternsToMap st1 !! p
                = Some (transformCoverage (createCoverageMap cov1))).
  { by rewrite Ht1, lookup_insert_eq. }
  destruct (update_again p v2 cov2 st1 _ Hp1) as [Ht2 Hix2]. fold st2 in Ht2, Hix2.
  split.
  - intros (c & Hc & Hin)%list_elem_of_fmap.
    apply elem_of_getFileCoverages in Hin as (s & q & Hs & Hq & ->).
    simpl in Hc. subst q. rewrite Hix1 in Hs.
    destruct (reachable_index_in_table st Hreach f s p Hs Hq) as [m Hm]. congruence.
  - apply elem_of_getFileCoverages.
    exists (indexed p (_fileNameToTestPatterns st1 !! f)), p. split_and!.
    + by rewrite Hix2, Hf2.
    + apply elem_of_indexed. by left.
    + unfold getTestPatternFileCoverage, getTestPatternIsPass.
      rewrite Ht2, lookup_insert_eq, lookup_union_l' by by rewrite Hf2.
      rewrite Hf2. subst st2. by rewrite update_verdicts, lookup_insert_eq.
Qed.

(** C4 (last run wins).  After [update p v covA] and then [update p v covB], for
    a file [f] that both transformed reports cover, the file coverage stored for
    [f] under [p] is the one of [covB]; when the two reports differ in their line
    hit counts for [f], the stored line hit counts are not those of [covA]. *)
Theorem C4_last_run_wins st p v covA covB f fcA fcB :
  transformCoverage (createCoverageMap covA) !! f = Some fcA →
  transformCoverage (createCoverageMap covB) !! f = Some fcB →
  getLineCoverage fcA ≠ getLineCoverage fcB →
  let st2 := exec (update transformCoverage p v covB)
               (exec (update transformCoverage p v covA) st) in
  getTestPatternFileCoverage st2 p f = Some fcB
  ∧ getLineCoverage <$> getTestPatternFileCoverage st2 p f ≠ Some (getLineCoverage fcA).
Proof.
  intros HfA HfB Hne st2.
  assert (Hstored : getTestPatternFileCoverage st2 p f = Some fcB).
  { set (st1 := exec (update transformCoverage p v covA) st) in *.
    assert (Hp1 : is_Some (_testPatternsToMap st1 !! p)).
    { subst st1. destruct (_testPatternsToMap st !! p) as [m|] eqn:Hm.
      - destruct (update_again p v covA st m Hm) as [-> _].
        rewrite lookup_insert_eq. by eexists.
      - destruct (update_first p v covA st Hm) as [-> _].
        rewrite lookup_insert_eq. by eexists. }
    destruct Hp1 as [m1 Hp1].
    destruct (update_again p v covB st1 m1 Hp1) as [Ht2 _]. fold st2 in Ht2.
    unfold getTestPatternFileCoverage.
    rewrite Ht2, lookup_insert_eq. apply lookup_union_Some_l, HfB. }
  split; [done|]. rewrite Hstored. simpl. congruence.
Qed.

(** C7 (absent coverage).  [update p v undefined] returns, records the verdict
    [v] for [p], leaves every stored file coverage and the reverse index as they
    were, and leaves the whole pattern table as it was when [p] already has a map
    (the source-map store gives an empty map for an empty map). *)
Theorem C7_absent_coverage st p v :
  transformCoverage ∅ = ∅ →
  let st' := exec (update transformCoverage p v None) st in
  returns (update transformCoverage p v None) st
  ∧ (∀ q f, getTestPatternFileCoverage st' q f = getTestPatternFileCoverage st q f)
  ∧ _fileNameToTestPatterns st' = _fileNameToTestPatterns st
  ∧ (is_Some (_testPatternsToMap st !! p) → _testPatternsToMap st' = _testPatternsToMap st)
  ∧ getTestPatternIsPass st' p = Some v.
Proof.
  intros Hempty st'. split; [apply update_returns|].
  assert (Hv : getTestPatternIsPass st' p = Some v).
  { unfold getTestPatternIsPass. subst st'. by rewrite update_verdicts, lookup_insert_eq. }
  destruct (_testPatternsToMap st !! p) as [m|] eqn:Hm.
  - destruct (update_again p v None st m Hm) as [Ht Hix]. fold st' in Ht, Hix.
    simpl in Ht, Hix. rewrite Hempty in Ht, Hix.
    rewrite (left_id_L ∅ (∪)), insert_id in Ht by done.
    split_and!; [|apply map_eq; intros file; by rewrite Hix, lookup_empty|done|done].
    intros q f. unfold getTestPatternFileCoverage. by rewrite Ht.
  - destruct (update_first p v None st Hm) as [Ht Hix]. fold st' in Ht, Hix.
    simpl in Ht. rewrite Hempty in Ht.
    split_and!; [|done|by intros [? ?]|done].
    intros q f. unfold getTestPatternFileCoverage. rewrite Ht.
    destruct (decide (p = q)) as [<-|Hne].
    + by rewrite lookup_insert_eq, Hm, lookup_empty.
    + by rewrite lookup_insert_ne.
Qed.

(** For a pattern without a map, the report without coverage still creates its
    map: the next report of the pattern is not its first. *)
Lemma absent_coverage_fresh st p v :
  _testPatternsToMap st !! p = None →
  _testPatternsToMap (exec (update transformCoverage p v None) st)
  = <[p := transformCoverage ∅]> (_testPatternsToMap st).
Proof. intros Hfresh. by destruct (update_first p v None st Hfresh). Qed.

(** C8 (reverse index within the pattern table).  The invariant that every
    pattern of the reverse index has an entry in the pattern table holds of a new
    provider and is preserved by [update], [setFileCoverage] (whether it returns
    or throws) and [reset]. *)
Theorem C8_index_in_table_preserved st :
  index_in_table st →
  (∀ p v obj, index_in_table (exec (update transformCoverage p v obj) st))
  ∧ (∀ p f map, index_in_table (exec (setFileCoverage p f map) st))
  ∧ index_in_table (exec reset st)
  ∧ index_in_table new_TestPatternsCoverageMapProvider.
Proof.
  intros Hinv. split_and!.
  - intros. by apply index_in_table_update.
  - intros. by apply index_in_table_setFileCoverage.
  - apply index_in_table_reset.
  - apply (index_in_table_reset st).
Qed.


(** C10 (entries have a verdict).  In every store reachable from a new provider
    by [update], [setFileCoverage] and [reset] calls, every entry that
    [getFileCoverages] returns has a defined [isPass]. *)
Theorem C10_entries_have_verdict st filePath :
  reachable transformCoverage st →
  Forall (λ c, is_Some (isPass c)) (getFileCoverages st filePath).
Proof.
  intros Hreach. apply Forall_forall. intros c Hc.
  apply elem_of_getFileCoverages in Hc as (s & q & Hs & Hq & ->). simpl.
  exact (reachable_index_has_verdict st Hreach filePath s q Hs Hq).
Qed.

End ProviderFacts.

(** * Properties of the line scoring engine *)

(** ** Numbers *)

Lemma add_zero_l x : add (of_Z 0) x = x.
Proof.
  unfold of_Z. rewrite Z2Qc_inj_0. destruct x as [q| | |]; simpl; try done.
  by rewrite Qcplus_0_l.
Qed.

Lemma div_of_Z n d :
  d ≠ 0 → div (of_Z n) (of_Z d) = Fin (Qc_of_Z n / Qc_of_Z d)%Qc.
Proof.
  intros Hd. unfold of_Z, div. rewrite decide_False; [done|].
  rewrite <-Z2Qc_inj_0. by intros ?%Z2Qc_inj.
Qed.

Lemma Qc_of_Z_pos n : 0 < n → (0 < Qc_of_Z n)%Qc.
Proof. intros Hn. rewrite <-Z2Qc_inj_0. exact (proj1 (Z2Qc_inj_lt 0 n) Hn). Qed.

Lemma Qc_of_Z_nonneg n : 0 ≤ n → (0 ≤ Qc_of_Z n)%Qc.
Proof. intros Hn. rewrite <-Z2Qc_inj_0. exact (proj1 (Z2Qc_inj_le 0 n) Hn). Qed.

Lemma Qcdiv_nonneg (x y : Qc) : (0 ≤ x → 0 < y → 0 ≤ x / y)%Qc.
Proof.
  intros Hx Hy. unfold Qcdiv. apply Qcmult_nonneg_nonneg; [done|].
  by apply Qclt_le_weak, Qcinv_pos.
Qed.

Lemma Qcdiv_pos (x y : Qc) : (0 < x → 0 < y → 0 < x / y)%Qc.
Proof. intros Hx Hy. unfold Qcdiv. apply Qcmult_pos_pos; [done|]. by apply Qcinv_pos. Qed.

Lemma Qcdiv_le_1 (x y : Qc) : (0 < y → x ≤ y → x / y ≤ 1)%Qc.
Proof.
  intros Hy Hxy. unfold Qcdiv.
  rewrite <-(Qcmult_inv_r y) by (apply not_eq_sym; by apply Qclt_not_eq).
  apply Qcmult_le_mono_nonneg_r; [|done]. by apply Qclt_le_weak, Qcinv_pos.
Qed.

(** With both totals positive and the line touched by some run, the score is a
    rational between 0 and 1. *)
Lemma score_bounds p f tP tF :
  0 ≤ p → 0 ≤ f → 0 < p + f → 0 < tP → 0 < tF →
  ∃ q, score p f tP tF = Fin q ∧ (0 ≤ q ≤ 1)%Qc.
Proof.
  intros Hp Hf Hpf HtP HtF. unfold score.
  rewrite !div_of_Z by lia. cbn [add].
  set (a := (Qc_of_Z p / Qc_of_Z tP)%Qc). set (b := (Qc_of_Z f / Qc_of_Z tF)%Qc).
  assert (HtP' : (0 < Qc_of_Z tP)%Qc) by by apply Qc_of_Z_pos.
  assert (HtF' : (0 < Qc_of_Z tF)%Qc) by by apply Qc_of_Z_pos.
  assert (Ha : (0 ≤ a)%Qc) by (apply Qcdiv_nonneg; [by apply Qc_of_Z_nonneg|done]).
  assert (Hb : (0 ≤ b)%Qc) by (apply Qcdiv_nonneg; [by apply Qc_of_Z_nonneg|done]).
  assert (Hab : (0 < a + b)%Qc).
  { destruct (decide (0 < p)) as [Hp'|Hp'].
    - apply Qcplus_pos_nonneg; [|done]. apply Qcdiv_pos; [by apply Qc_of_Z_pos|done].
    - apply Qcplus_nonneg_pos; [done|]. apply Qcdiv_pos; [apply Qc_of_Z_pos; lia|done]. }
  unfold div. rewrite decide_False by (apply not_eq_sym; by apply Qclt_not_eq).
  eexists. split; [done|]. split.
  - by apply Qcdiv_nonneg.
  - apply Qcdiv_le_1; [done|].
    rewrite <-(Qcplus_0_r a) at 1. by apply Qcplus_le_mono_l.
Qed.

(** ** Severity resolution *)

Lemma severity_le_spec s1 s2 : severity_le s1 s2 ↔ (severity s2 ≤ severity s1)%nat.
Proof.
  destruct s1, s2; unfold severity_le, compareSeverity;
    repeat case_decide; try done; simpl; lia.
Qed.

#[global] Instance severity_le_total : Total severity_le.
Proof. intros s1 s2. rewrite !severity_le_spec. lia. Qed.

#[global] Instance severity_le_trans : Transitive severity_le.
Proof. intros s1 s2 s3. rewrite !severity_le_spec. lia. Qed.

#[global] Instance severity_le_antisymm : AntiSymm (=) severity_le.
Proof. intros s1 s2. rewrite !severity_le_spec. destruct s1, s2; simpl; done || lia. Qed.

(** Whatever algorithm [Array.prototype.sort] runs, a result that is a permutation
    of the list and ordered by the comparator is the list [sortBySeverity] gives. *)
Lemma sortBySeverity_unique l sorted :
  sorted ≡ₚ l → Sorted severity_le sorted → sorted = sortBySeverity l.
Proof.
  intros Hperm Hsorted. apply (Sorted_unique severity_le); [done|..].
  - apply Sorted_merge_sort, _.
  - unfold sortBySeverity. by rewrite merge_sort_Permutation.
Qed.

(** The sort puts a most severe element of the list in front. *)
Lemma head_sortBySeverity l s :
  head (sortBySeverity l) = Some s →
  s ∈ l ∧ ∀ s', s' ∈ l → (severity s' ≤ severity s)%nat.
Proof.
  unfold sortBySeverity. intros Hhd.
  pose proof (StronglySorted_merge_sort severity_le l) as Hsorted.
  pose proof (merge_sort_Permutation severity_le l) as Hperm.
  destruct (merge_sort severity_le l) as [|s0 l0]; [done|].
  injection Hhd as ->. split.
  - rewrite <-Hperm. apply list_elem_of_here.
  - intros s' Hs'. rewrite <-Hperm in Hs'.
    apply elem_of_cons in Hs' as [->|Hs']; [done|].
    apply StronglySorted_inv in Hsorted as [_ Hall].
    rewrite Forall_forall in Hall. by apply severity_le_spec, Hall.
Qed.

Lemma head_sortBySeverity_is_Some l : l ≠ [] → is_Some (head (sortBySeverity l)).
Proof.
  intros Hl. unfold sortBySeverity.
  pose proof (merge_sort_Permutation severity_le l) as Hperm.
  destruct (merge_sort severity_le l) as [|s0 l0]; [|by eexists].
  apply Permutation_nil_l in Hperm. by subst.
Qed.

Lemma statusList_nonempty fileCoverage line onNoCoverageInfo :
  statusList fileCoverage line onNoCoverageInfo ≠ [].
Proof.
  unfold statusList.
  destruct (mjoin (getFunctionCoverageByLine fileCoverage !! line)),
    (getBranchCoverageByLine fileCoverage !! line),
    (getLineCoverage fileCoverage !! line), onNoCoverageInfo; simpl; done.
Qed.

(** The resolved status exists and is a most severe candidate. *)
Lemma lineStatus_most_severe fileCoverage line onNoCoverageInfo :
  ∃ status,
    lineStatus fileCoverage line onNoCoverageInfo = Some status
    ∧ status ∈ statusList fileCoverage line onNoCoverageInfo
    ∧ ∀ s, s ∈ statusList fileCoverage line onNoCoverageInfo →
           (severity s ≤ severity status)%nat.
Proof.
  unfold lineStatus.
  destruct (head_sortBySeverity_is_Some _
              (statusList_nonempty fileCoverage line onNoCoverageInfo)) as [status Hhd].
  exists status. split; [done|]. by apply head_sortBySeverity.
Qed.

(** A function status is the first candidate. *)
Lemma statusList_function fileCoverage line onNoCoverageInfo fc :
  mjoin (getFunctionCoverageByLine fileCoverage !! line) = Some fc →
  (if bool_decide (0 < fc) then Covered else Uncovered)
    ∈ statusList fileCoverage line onNoCoverageInfo.
Proof.
  intros Hfc. unfold statusList. rewrite Hfc.
  destruct (getBranchCoverageByLine fileCoverage !! line),
    (getLineCoverage fileCoverage !! line), onNoCoverageInfo; simpl;
    apply list_elem_of_here.
Qed.

(** A statement status is a candidate. *)
Lemma statusList_statement fileCoverage line onNoCoverageInfo lc :
  getLineCoverage fileCoverage !! line = Some lc →
  (if bool_decide (0 < lc) then Covered else Uncovered)
    ∈ statusList fileCoverage line onNoCoverageInfo.
Proof.
  intros Hlc. unfold statusList. rewrite Hlc.
  destruct (mjoin (getFunctionCoverageByLine fileCoverage !! line)),
    (getBranchCoverageByLine fileCoverage !! line), onNoCoverageInfo; simpl;
    rewrite ?elem_of_cons; tauto.
Qed.

(** C3 (severity resolution).  For a file coverage and a line to which both a
    function status (the function hit count [fhits] recorded for the line) and a
    statement status (the statement hit count [lhits]) apply, both are candidates
    and the resolved status is a candidate of the greatest severity, under
    uncovered > partially-covered > covered; with [fhits = 0] and [lhits = 5] the
    resolved status is uncovered and an entry with this file coverage leaves both
    run tallies of the line as they are. *)
Theorem C3_severity_resolution fileCoverage0 line onNoCoverageInfo fhits lhits :
  mjoin (getFunctionCoverageByLine fileCoverage0 !! line) = Some fhits →
  getLineCoverage fileCoverage0 !! line = Some lhits →
  (∃ status,
      lineStatus fileCoverage0 line onNoCoverageInfo = Some status
      ∧ status ∈ statusList fileCoverage0 line onNoCoverageInfo
      ∧ (if bool_decide (0 < fhits) then Covered else Uncovered)
          ∈ statusList fileCoverage0 line onNoCoverageInfo
      ∧ (if bool_decide (0 < lhits) then Covered else Uncovered)
          ∈ statusList fileCoverage0 line onNoCoverageInfo
      ∧ ∀ s, s ∈ statusList fileCoverage0 line onNoCoverageInfo →
             (severity s ≤ severity status)%nat)
  ∧ (fhits = 0 → lhits = 5 →
     lineStatus fileCoverage0 line onNoCoverageInfo = Some Uncovered
     ∧ ∀ c counts, fileCoverage c = Some fileCoverage0 →
                   tally line onNoCoverageInfo counts c = counts).
Proof.
  intros Hf Hl.
  destruct (lineStatus_most_severe fileCoverage0 line onNoCoverageInfo)
    as (status & Hstatus & Hin & Hmax).
  pose proof (statusList_function _ _ onNoCoverageInfo _ Hf) as Hfin.
  pose proof (statusList_statement _ _ onNoCoverageInfo _ Hl) as Hlin.
  split; [by exists status|].
  intros -> ->.
  assert (status = Uncovered) as ->.
  { apply Hmax in Hfin. simpl in Hfin. destruct status; simpl in Hfin; done || lia. }
  split; [done|]. intros c [p f] Hc. unfold tally. by rewrite Hc, Hstatus.
Qed.

(** ** The per-line records *)

Lemma totalSuccess_count a (entries : list TestPatternCoverage) :
  foldl (λ p c, p + (if isPass c is Some true then 1 else 0)) a entries
  = a + runsWithVerdict true entries.
Proof.
  unfold runsWithVerdict. revert a. induction entries as [|c entries IH]; intros a.
  - simpl. lia.
  - cbn [foldl]. rewrite IH, filter_cons. case_decide as Hc.
    + rewrite Hc. cbn [length]. lia.
    + destruct (isPass c) as [[|]|]; try done; lia.
Qed.

Lemma totalFailed_count a (entries : list TestPatternCoverage) :
  foldl (λ p c, p + (if isPass c is Some false then 1 else 0)) a entries
  = a + runsWithVerdict false entries.
Proof.
  unfold runsWithVerdict. revert a. induction entries as [|c entries IH]; intros a.
  - simpl. lia.
  - cbn [foldl]. rewrite IH, filter_cons. case_decide as Hc.
    + rewrite Hc. cbn [length]. lia.
    + destruct (isPass c) as [[|]|]; try done; lia.
Qed.

Lemma lookup_lineToCoverage (record : Z → LineHueCoverage) lines
    (lineToCoverage : gmap Z LineHueCoverage) line :
  foldl (λ lineToCoverage line, <[line := record line]> lineToCoverage)
        lineToCoverage lines !! line
  = if decide (line ∈ lines) then Some (record line) else lineToCoverage !! line.
Proof.
  revert lineToCoverage. induction lines as [|l lines IH]; intros m; cbn [foldl].
  - by rewrite decide_False by apply not_elem_of_nil.
  - rewrite IH. destruct (decide (line ∈ lines)) as [Hin|Hin].
    + by rewrite decide_True by by apply list_elem_of_further.
    + destruct (decide (line = l)) as [->|Hne].
      * by rewrite lookup_insert_eq, decide_True by apply list_elem_of_here.
      * rewrite lookup_insert_ne by done.
        rewrite decide_False; [done|]. rewrite elem_of_cons. tauto.
Qed.

(** The lines of the result are 1 to [lineCount]; each holds the record of the
    first loop with the hue of the second. *)
Lemma lineCoverages_lookup st editor onNoCoverageInfo line :
  lineCoverages st editor onNoCoverageInfo !! line
  = let entries := getFileCoverages st (fileName (document editor)) in
    if decide (1 ≤ line ≤ lineCount (document editor)) then
      Some (withHue (runsWithVerdict true entries) (runsWithVerdict false entries)
              (lineRecord entries line onNoCoverageInfo))
    else None.
Proof.
  unfold lineCoverages. cbv zeta.
  rewrite lookup_fmap, lookup_lineToCoverage, totalSuccess_count, totalFailed_count.
  rewrite !Z.add_0_l.
  destruct (decide (line ∈ seqZ 1 (lineCount (document editor)))) as [Hin|Hin];
    rewrite elem_of_seqZ in Hin.
  - rewrite decide_True by lia. done.
  - rewrite decide_False by lia. by rewrite lookup_empty.
Qed.

Lemma tally_covered_pass line onNoCoverageInfo p f c fc :
  fileCoverage c = Some fc → lineStatus fc line onNoCoverageInfo = Some Covered →
  isPass c = Some true →
  tally line onNoCoverageInfo (p, f) c = (p + 1, f).
Proof. intros Hfc Hs Hv. unfold tally. by rewrite Hfc, Hs, Hv. Qed.

Lemma tally_covered_fail line onNoCoverageInfo p f c fc :
  fileCoverage c = Some fc → lineStatus fc line onNoCoverageInfo = Some Covered →
  isPass c ≠ Some true →
  tally line onNoCoverageInfo (p, f) c = (p, f + 1).
Proof.
  intros Hfc Hs Hv. unfold tally. rewrite Hfc, Hs.
  by destruct (isPass c) as [[|]|].
Qed.

Lemma tally_not_covered line onNoCoverageInfo counts c fc :
  fileCoverage c = Some fc → lineStatus fc line onNoCoverageInfo ≠ Some Covered →
  tally line onNoCoverageInfo counts c = counts.
Proof.
  intros Hfc Hs. destruct counts as [p f]. unfold tally. rewrite Hfc.
  by destruct (lineStatus fc line onNoCoverageInfo) as [[| |]|].
Qed.

Lemma tally_nonneg line onNoCoverageInfo entries counts :
  0 ≤ counts.1 → 0 ≤ counts.2 →
  0 ≤ (foldl (tally line onNoCoverageInfo) counts entries).1
  ∧ 0 ≤ (foldl (tally line onNoCoverageInfo) counts entries).2.
Proof.
  revert counts. induction entries as [|c entries IH]; intros [p f] Hp Hf; [done|].
  cbn [foldl]. apply IH; unfold tally;
    destruct (fileCoverage c) as [fc|]; try done;
    destruct (lineStatus fc line onNoCoverageInfo) as [[| |]|]; try done;
    destruct (isPass c) as [[|]|]; simpl in *; lia.
Qed.

Lemma lineRecord_nonneg entries line onNoCoverageInfo :
  0 ≤ numOfPassTests (lineRecord entries line onNoCoverageInfo)
  ∧ 0 ≤ numOfFailedTests (lineRecord entries line onNoCoverageInfo).
Proof.
  unfold lineRecord.
  pose proof (tally_nonneg line onNoCoverageInfo entries (0, 0)) as Hnn.
  destruct (foldl (tally line onNoCoverageInfo) (0, 0) entries) as [p f].
  simpl in *. lia.
Qed.

Lemma lineRecord_isCovered entries line onNoCoverageInfo :
  isCovered (lineRecord entries line onNoCoverageInfo)
  = bool_decide (0 < numOfPassTests (lineRecord entries line onNoCoverageInfo)
                     + numOfFailedTests (lineRecord entries line onNoCoverageInfo)).
Proof.
  unfold lineRecord.
  destruct (foldl (tally line onNoCoverageInfo) (0, 0) entries) as [p f]. simpl.
  apply bool_decide_ext. lia.
Qed.

Lemma runsWithVerdict_nonneg verdict entries : 0 ≤ runsWithVerdict verdict entries.
Proof. unfold runsWithVerdict. lia. Qed.

(** C1 (the score).  For every store, editor and line [L] of the result with record
    [r]: [isCovered r] holds exactly when the two run tallies of [r] sum to more
    than 0; when it holds, the hue of [r] is the score
    (p / totalPassed) / ((p / totalPassed) + (f / totalFailed)) of its tallies [p]
    and [f], the totals being the numbers of entries of [getFileCoverages] with a
    pass and with a fail verdict; when it does not hold, the hue is undefined. *)
Theorem C1_score_formula st editor onNoCoverageInfo L r :
  lineCoverages st editor onNoCoverageInfo !! L = Some r →
  let entries := getFileCoverages st (fileName (document editor)) in
  isCovered r = bool_decide (0 < numOfPassTests r + numOfFailedTests r)
  ∧ (isCovered r = true →
     hue r = Some (score (numOfPassTests r) (numOfFailedTests r)
                     (runsWithVerdict true entries) (runsWithVerdict false entries)))
  ∧ (isCovered r = false → hue r = None).
Proof.
  rewrite lineCoverages_lookup. cbv zeta. case_decide; [|done].
  intros [= <-]. cbn [withHue isCovered numOfPassTests numOfFailedTests hue].
  split_and!.
  - apply lineRecord_isCovered.
  - intros ->. by rewrite add_zero_l.
  - by intros ->.
Qed.

(** C6 (score bounds).  For every line of the result whose record [r] has
    [isCovered r], when the file has at least one entry with a pass verdict and at
    least one with a fail verdict, the hue of [r] is a number between 0 and 1. *)
Theorem C6_score_bounds st editor onNoCoverageInfo L r :
  lineCoverages st editor onNoCoverageInfo !! L = Some r →
  isCovered r = true →
  let entries := getFileCoverages st (fileName (document editor)) in
  runsWithVerdict true entries ≠ 0 →
  runsWithVerdict false entries ≠ 0 →
  ∃ q, hue r = Some (Fin q) ∧ (0 ≤ q ≤ 1)%Qc.
Proof.
  rewrite lineCoverages_lookup. cbv zeta. case_decide; [|done].
  intros [= <-]. cbn [withHue isCovered numOfPassTests numOfFailedTests hue].
  intros Hcov HtP HtF. rewrite Hcov, add_zero_l.
  rewrite lineRecord_isCovered in Hcov. apply bool_decide_eq_true in Hcov.
  destruct (lineRecord_nonneg (getFileCoverages st (fileName (document editor)))
              L onNoCoverageInfo) as [Hp Hf].
  pose proof (runsWithVerdict_nonneg true
                (getFileCoverages st (fileName (document editor)))).
  pose proof (runsWithVerdict_nonneg false
                (getFileCoverages st (fileName (document editor)))).
  destruct (score_bounds _ _
              (runsWithVerdict true (getFileCoverages st (fileName (document editor))))
              (runsWithVerdict false (getFileCoverages st (fileName (document editor))))
              Hp Hf Hcov)
    as (q & Hq & Hbounds); [lia..|].
  exists q. split; [|done]. f_equal. exact Hq.
Qed.

(** ** The two-pattern scenario, settled *)

Lemma score_half : score 1 1 1 1 = Fin (Q2Qc (1 # 2)).
Proof. unfold score. rewrite !div_of_Z by done. reflexivity. Qed.

Lemma score_one : score 1 0 1 1 = Fin 1%Qc.
Proof. unfold score. rewrite !div_of_Z by done. reflexivity. Qed.

Section ScenarioFacts.

Variable transformCoverage : CoverageMap → CoverageMap.
Variables (pA pB : string) (covA covB : option CoverageMap).
Variables (file : string) (fcA fcB : FileCoverage).
Hypothesis distinct : pA ≠ pB.
Hypothesis coversA : transformCoverage (createCoverageMap covA) !! file = Some fcA.
Hypothesis coversB : transformCoverage (createCoverageMap covB) !! file = Some fcB.

(** After two rounds the file is indexed against both patterns, in the order of
    their second reports. *)
Lemma reports_twice_entries :
  getFileCoverages
    (reports transformCoverage pA covA pB covB 2 new_TestPatternsCoverageMapProvider)
    file
  = [ {| fileCoverage := Some fcA; isPass := Some true; testPattern := pA |};
      {| fileCoverage := Some fcB; isPass := Some false; testPattern := pB |} ].
Proof.
  cbn [reports].
  set (st0 := new_TestPatternsCoverageMapProvider).
  set (st1 := exec (update transformCoverage pA true covA) st0).
  set (st2 := exec (update transformCoverage pB false covB) st1).
  set (st3 := exec (update transformCoverage pA true covA) st2).
  set (st4 := exec (update transformCoverage pB false covB) st3).
  set (TA := transformCoverage (createCoverageMap covA)) in *.
  set (TB := transformCoverage (createCoverageMap covB)) in *.
  destruct (update_first transformCoverage pA true covA st0) as [Ht1 Hix1]; [done|].
  fold st1 TA in Ht1, Hix1.
  destruct (update_first transformCoverage pB false covB st1) as [Ht2 Hix2].
  { rewrite Ht1. by rewrite lookup_insert_ne. }
  fold st2 TB in Ht2, Hix2.
  destruct (update_again transformCoverage pA true covA st2 TA) as [Ht3 Hix3].
  { rewrite Ht2, Ht1. by rewrite lookup_insert_ne, lookup_insert_eq. }
  fold st3 TA in Ht3, Hix3.
  destruct (update_again transformCoverage pB false covB st3 TB) as [Ht4 Hix4].
  { rewrite Ht3, Ht2. by rewrite lookup_insert_ne, lookup_insert_eq. }
  fold st4 TB in Ht4, Hix4.
  assert (Hix : _fileNameToTestPatterns st4 !! file = Some [pA; pB]).
  { rewrite Hix4, coversB, Hix3, coversA, Hix2, Hix1. simpl.
    unfold Set_add. rewrite decide_False; [done|].
    by intros ->%list_elem_of_singleton. }
  assert (Hv : _testPatternsToIsPass st4 !! pA = Some true
               ∧ _testPatternsToIsPass st4 !! pB = Some false).
  { unfold st4, st3, st2, st1. rewrite !update_verdicts. split.
    - by rewrite lookup_insert_ne, lookup_insert_eq.
    - by rewrite lookup_insert_eq. }
  destruct Hv as [HvA HvB].
  unfold getFileCoverages. rewrite Hix. simpl.
  unfold getTestPatternFileCoverage, getTestPatternIsPass.
  rewrite HvA, HvB, Ht4, lookup_insert_eq, lookup_insert_ne, Ht3, lookup_insert_eq by done.
  by rewrite (lookup_union_Some_l _ _ _ _ coversA), (lookup_union_Some_l _ _ _ _ coversB).
Qed.

End ScenarioFacts.

(** C5 as stated fails: after one [update] for each pattern no pattern is indexed
    against the file, and line 10 has no run at all. *)
Lemma C5_one_report_each_counterexample :
  ¬ scenarioOutcome (lineCoverages Scenario.reportedOnce Scenario.editor None).
Proof.
  intros [(r & Hr & Hp & _) _].
  assert (Hten : numOfPassTests
                   <$> lineCoverages Scenario.reportedOnce Scenario.editor None !! 10
                 = Some 0) by (vm_compute; reflexivity).
  rewrite Hr in Hten. simpl in Hten. congruence.
Qed.

(** C5 (the scenario, amended).  Pattern [pA] passed and pattern [pB] failed, both
    with a coverage of file [file] that resolves line 10 to covered; the coverage
    of [pA] also resolves line 20 to covered, that of [pB] does not.  After each
    pattern has been reported twice to a new provider, the per-line result of the
    file has line 10 with one passed run, one failed run and hue 0.5, and line 20
    with one passed run, no failed run and hue 1. *)
Theorem C5_scenario_after_two_reports transformCoverage pA pB covA covB file fcA fcB
    editor onNoCoverageInfo :
  pA ≠ pB →
  transformCoverage (createCoverageMap covA) !! file = Some fcA →
  transformCoverage (createCoverageMap covB) !! file = Some fcB →
  fileName (document editor) = file →
  20 ≤ lineCount (document editor) →
  lineStatus fcA 10 onNoCoverageInfo = Some Covered →
  lineStatus fcB 10 onNoCoverageInfo = Some Covered →
  lineStatus fcA 20 onNoCoverageInfo = Some Covered →
  lineStatus fcB 20 onNoCoverageInfo ≠ Some Covered →
  scenarioOutcome
    (lineCoverages
       (reports transformCoverage pA covA pB covB 2 new_TestPatternsCoverageMapProvider)
       editor onNoCoverageInfo).
Proof.
  intros Hne HA HB Hfile Hcount HA10 HB10 HA20 HB20.
  pose proof (reports_twice_entries transformCoverage pA pB covA covB file fcA fcB
                Hne HA HB) as Hentries.
  unfold scenarioOutcome. rewrite !lineCoverages_lookup. cbv zeta.
  rewrite Hfile, Hentries, !decide_True by lia.
  assert (H10 : lineRecord
                  [ {| fileCoverage := Some fcA; isPass := Some true; testPattern := pA |};
                    {| fileCoverage := Some fcB; isPass := Some false; testPattern := pB |} ]
                  10 onNoCoverageInfo
                = {| numOfFailedTests := 1; numOfPassTests := 1; hue := None;
                     isCovered := true |}).
  { unfold lineRecord. cbn [foldl].
    rewrite (tally_covered_pass _ _ _ _ _ fcA), (tally_covered_fail _ _ _ _ _ fcB); done. }
  assert (H20 : lineRecord
                  [ {| fileCoverage := Some fcA; isPass := Some true; testPattern := pA |};
                    {| fileCoverage := Some fcB; isPass := Some false; testPattern := pB |} ]
                  20 onNoCoverageInfo
                = {| numOfFailedTests := 0; numOfPassTests := 1; hue := None;
                     isCovered := true |}).
  { unfold lineRecord. cbn [foldl].
    rewrite (tally_covered_pass _ _ _ _ _ fcA), (tally_not_covered _ _ _ _ fcB); done. }
  assert (HtP : runsWithVerdict true
                  [ {| fileCoverage := Some fcA; isPass := Some true; testPattern := pA |};
                    {| fileCoverage := Some fcB; isPass := Some false; testPattern := pB |} ]
                = 1) by reflexivity.
  assert (HtF : runsWithVerdict false
                  [ {| fileCoverage := Some fcA; isPass := Some true; testPattern := pA |};
                    {| fileCoverage := Some fcB; isPass := Some false; testPattern := pB |} ]
                = 1) by reflexivity.
  rewrite H10, H20, HtP, HtF. unfold withHue.
  cbn [numOfPassTests numOfFailedTests isCovered hue].
  rewrite !add_zero_l. fold (score 1 1 1 1). fold (score 1 0 1 1).
  rewrite score_half, score_one.
  split; eexists; (split; [reflexivity|]); done.
Qed.

(** * The theorems at concrete inputs *)

Lemma C1_score_formula_witness :
  ∃ r, lineCoverages Scenario.reportedTwice Scenario.editor None !! 10 = Some r
       ∧ isCovered r = bool_decide (0 < numOfPassTests r + numOfFailedTests r)
       ∧ (isCovered r = true →
          hue r = Some (score (numOfPassTests r) (numOfFailedTests r)
                          (runsWithVerdict true
                             (getFileCoverages Scenario.reportedTwice "f.ts"))
                          (runsWithVerdict false
                             (getFileCoverages Scenario.reportedTwice "f.ts"))))
       ∧ (isCovered r = false → hue r = None).
Proof.
  eexists. split; [vm_compute; reflexivity|].
  apply (C1_score_formula Scenario.reportedTwice Scenario.editor None 10).
  vm_compute; reflexivity.
Defined.

Lemma C2_reverse_index_timing_witness :
  let st1 := exec (update Scenario.noSourceMaps "A" true (Some Scenario.covA))
               new_TestPatternsCoverageMapProvider in
  let st2 := exec (update Scenario.noSourceMaps "A" false (Some Scenario.covA)) st1 in
  ("A" ∉ testPattern <$> getFileCoverages st1 "f.ts")
  ∧ ({| fileCoverage := Some (Scenario.statements "f.ts" [(10, 1); (20, 1)]);
        isPass := Some false; testPattern := "A" |}
       ∈ getFileCoverages st2 "f.ts").
Proof.
  apply (C2_reverse_index_timing Scenario.noSourceMaps
           new_TestPatternsCoverageMapProvider "A" true false
           (Some Scenario.covA) (Some Scenario.covA) "f.ts"
           (Scenario.statements "f.ts" [(10, 1); (20, 1)])
           (Scenario.statements "f.ts" [(10, 1); (20, 1)])).
  - apply reachable_new.
  - reflexivity.
  - reflexivity.
  - reflexivity.
Defined.

Lemma C3_severity_resolution_witness :
  lineStatus Scenario.uncalled 3 None = Some Uncovered
  ∧ ∀ c counts, fileCoverage c = Some Scenario.uncalled → tally 3 None counts c = counts.
Proof.
  apply (C3_severity_resolution Scenario.uncalled 3 None 0 5); reflexivity.
Defined.

Lemma C4_last_run_wins_witness :
  let st2 := exec (update Scenario.noSourceMaps "A" true (Some Scenario.covB))
               (exec (update Scenario.noSourceMaps "A" true (Some Scenario.covA))
                  new_TestPatternsCoverageMapProvider) in
  getTestPatternFileCoverage st2 "A" "f.ts"
    = Some (Scenario.statements "f.ts" [(10, 3); (20, 0)])
  ∧ getLineCoverage <$> getTestPatternFileCoverage st2 "A" "f.ts"
    ≠ Some (getLineCoverage (Scenario.statements "f.ts" [(10, 1); (20, 1)])).
Proof.
  apply (C4_last_run_wins Scenario.noSourceMaps new_TestPatternsCoverageMapProvider
           "A" true (Some Scenario.covA) (Some Scenario.covB) "f.ts"
           (Scenario.statements "f.ts" [(10, 1); (20, 1)])
           (Scenario.statements "f.ts" [(10, 3); (20, 0)])).
  - reflexivity.
  - reflexivity.
  - intros Heq. apply (f_equal (λ m : gmap Z Z, m !! 10)) in Heq.
    vm_compute in Heq. discriminate Heq.
Defined.

Lemma C5_scenario_after_two_reports_witness :
  scenarioOutcome (lineCoverages Scenario.reportedTwice Scenario.editor None).
Proof.
  apply (C5_scenario_after_two_reports Scenario.noSourceMaps "A" "B"
           (Some Scenario.covA) (Some Scenario.covB) "f.ts"
           (Scenario.statements "f.ts" [(10, 1); (20, 1)])
           (Scenario.statements "f.ts" [(10, 3); (20, 0)])
           Scenario.editor None).
  - discriminate.
  - reflexivity.
  - reflexivity.
  - reflexivity.
  - simpl. lia.
  - vm_compute; reflexivity.
  - vm_compute; reflexivity.
  - vm_compute; reflexivity.
  - vm_compute. discriminate.
Defined.

Lemma C6_score_bounds_witness :
  ∃ r, lineCoverages Scenario.reportedTwice Scenario.editor None !! 10 = Some r
       ∧ ∃ q, hue r = Some (Fin q) ∧ (0 ≤ q ≤ 1)%Qc.
Proof.
  eexists. split; [vm_compute; reflexivity|].
  apply (C6_score_bounds Scenario.reportedTwice Scenario.editor None 10).
  - vm_compute; reflexivity.
  - reflexivity.
  - vm_compute. discriminate.
  - vm_compute. discriminate.
Defined.

Lemma C7_absent_coverage_witness :
  let st' := exec (update Scenario.noSourceMaps "A" true None)
               Scenario.reportedTwice in
  returns (update Scenario.noSourceMaps "A" true None) Scenario.reportedTwice
  ∧ (∀ q f, getTestPatternFileCoverage st' q f
            = getTestPatternFileCoverage Scenario.reportedTwice q f)
  ∧ _fileNameToTestPatterns st' = _fileNameToTestPatterns Scenario.reportedTwice
  ∧ (is_Some (_testPatternsToMap Scenario.reportedTwice !! "A") →
     _testPatternsToMap st' = _testPatternsToMap Scenario.reportedTwice)
  ∧ getTestPatternIsPass st' "A" = Some true.
Proof.
  apply (C7_absent_coverage Scenario.noSourceMaps Scenario.reportedTwice "A" true).
  reflexivity.
Defined.

Lemma C8_index_in_table_preserved_witness :
  _fileNameToTestPatterns Scenario.reportedTwice !! "f.ts" = Some ["A"; "B"]
  ∧ (∀ p v obj,
       index_in_table (exec (update Scenario.noSourceMaps p v obj) Scenario.reportedTwice))
  ∧ (∀ p f map,
       index_in_table (exec (setFileCoverage p f map) Scenario.reportedTwice))
  ∧ index_in_table (exec reset Scenario.reportedTwice)
  ∧ index_in_table new_TestPatternsCoverageMapProvider.
Proof.
  split; [vm_compute; reflexivity|].
  apply (C8_index_in_table_preserved Scenario.noSourceMaps Scenario.reportedTwice).
  apply (reachable_index_in_table Scenario.noSourceMaps).
  unfold Scenario.reportedTwice. cbn [reports].
  do 4 apply reachable_update. apply reachable_new.
Defined.

Lemma C10_entries_have_verdict_witness :
  Forall (λ c, is_Some (isPass c)) (getFileCoverages Scenario.reportedTwice "f.ts").
Proof.
  apply (C10_entries_have_verdict Scenario.noSourceMaps Scenario.reportedTwice "f.ts").
  unfold Scenario.reportedTwice. cbn [reports].
  do 4 apply reachable_update. apply reachable_new.
Defined.


(** * Further properties of the store *)

Lemma store_eq (st st' : Store) :
  _fileNameToTestPatterns st = _fileNameToTestPatterns st' →
  _testPatternsToIsPass st = _testPatternsToIsPass st' →
  _testPatternsToMap st = _testPatternsToMap st' →
  _map st = _map st' →
  st = st'.
Proof. destruct st, st'; simpl; by intros -> -> -> ->. Qed.

Lemma indexedPatterns_eq st filePath :
  indexedPatterns st filePath = default [] (_fileNameToTestPatterns st !! filePath).
Proof.
  unfold indexedPatterns, getFileCoverages. rewrite <-list_fmap_compose.
  by rewrite list_fmap_id.
Qed.

Lemma Set_add_elem x s : x ∈ s → Set_add x s = s.
Proof. intros Hx. unfold Set_add. by rewrite decide_True. Qed.

Lemma indexed_idemp p entry : indexed p (Some (indexed p entry)) = indexed p entry.
Proof. simpl. apply Set_add_elem, elem_of_indexed. by left. Qed.

Lemma setFileCoverage_map testPattern filePath (map : CoverageMap) st :
  _map (exec (setFileCoverage testPattern filePath map) st) = _map st.
Proof.
  unfold exec, setFileCoverage, mbind, Eff_bind, bind, get_store, fileCoverageFor.
  by destruct (_testPatternsToMap st !! testPattern), (map !! filePath).
Qed.

Section MoreProviderFacts.

Variable transformCoverage : CoverageMap → CoverageMap.

Lemma update_map testPattern isPass obj st :
  _map (exec (update transformCoverage testPattern isPass obj) st) = _map st.
Proof.
  rewrite exec_update. unfold updated.
  by destruct (_testPatternsToMap st !! testPattern).
Qed.

(** X1 (the loop of [update] returns).  Once [update] has the transformed coverage
    map of a report, its loop over the files of that map cannot throw: in a store
    where the pattern has a map the whole [forEach] completes normally, and in any
    store [setFileCoverage] returns for every file that [files()] lists, so
    "No file coverage available" is never raised from there.  (What the library does
    with a malformed report before that point is outside the model.) *)
Theorem X1_update_loop_never_throws st p (transformed : CoverageMap) :
  is_Some (_testPatternsToMap st !! p) →
  (forEach (λ fileName,
      st ← get_store;
      (match _fileNameToTestPatterns st !! fileName with
       | Some fileNameToTestPatternSet =>
           modify (set_fileNameToTestPatterns
                     <[fileName := Set_add p fileNameToTestPatternSet]>)
       | None =>
           modify (set_fileNameToTestPatterns <[fileName := [p]]>)
       end);;
      setFileCoverage p fileName transformed)
    (files transformed) st).1 = Normal tt
  ∧ ∀ st' file, file ∈ files transformed →
                (setFileCoverage p file transformed st').1 = Normal tt.
Proof.
  intros Hp. split.
  - rewrite forEach_merge; [done|done|]. intros file. by rewrite elem_of_files.
  - intros st' file [fc Hfc]%elem_of_files.
    unfold setFileCoverage, mbind, Eff_bind, bind, get_store, fileCoverageFor.
    rewrite Hfc. by destruct (_testPatternsToMap st' !! p).
Qed.

(** X2 ([setFileCoverage], file missing).  When [map] has no coverage for
    [filePath], [setFileCoverage] throws "No file coverage available for: " followed
    by the path; the verdicts and the reverse index are as before, and the pattern
    table is as before except that a pattern without a map has got an empty one. *)
Theorem X2_setFileCoverage_missing_file st p filePath (map : CoverageMap) :
  map !! filePath = None →
  (setFileCoverage p filePath map st).1
    = Throw ("No file coverage available for: " +:+ filePath)
  ∧ _fileNameToTestPatterns (exec (setFileCoverage p filePath map) st)
    = _fileNameToTestPatterns st
  ∧ _testPatternsToIsPass (exec (setFileCoverage p filePath map) st)
    = _testPatternsToIsPass st
  ∧ _testPatternsToMap (exec (setFileCoverage p filePath map) st)
    = if _testPatternsToMap st !! p is Some _ then _testPatternsToMap st
      else <[p := ∅]> (_testPatternsToMap st).
Proof.
  intros Hmap.
  unfold exec, setFileCoverage, mbind, Eff_bind, bind, get_store, fileCoverageFor.
  rewrite Hmap. by destruct (_testPatternsToMap st !! p).
Qed.

(** X3 ([setFileCoverage], file present).  When [map] has the coverage [fc] for
    [filePath], [setFileCoverage] returns; afterwards the coverage stored for the
    pattern and the file is [fc], the coverage stored for the pattern and any other
    file is as before, and the verdicts and the reverse index are untouched. *)
Theorem X3_setFileCoverage_stores st p filePath (map : CoverageMap) fc :
  map !! filePath = Some fc →
  let st' := exec (setFileCoverage p filePath map) st in
  (setFileCoverage p filePath map st).1 = Normal tt
  ∧ getTestPatternFileCoverage st' p filePath = Some fc
  ∧ (∀ g, g ≠ filePath →
          getTestPatternFileCoverage st' p g = getTestPatternFileCoverage st p g)
  ∧ _fileNameToTestPatterns st' = _fileNameToTestPatterns st
  ∧ _testPatternsToIsPass st' = _testPatternsToIsPass st.
Proof.
  intros Hmap st'. subst st'.
  unfold exec, setFileCoverage, mbind, Eff_bind, bind, get_store, fileCoverageFor,
    getTestPatternFileCoverage.
  rewrite Hmap. destruct (_testPatternsToMap st !! p) as [m|] eqn:Hm; simpl.
  - rewrite lookup_alter_eq, Hm. simpl. rewrite lookup_insert_eq.
    split_and!; try done. intros g Hg. by rewrite lookup_insert_ne.
  - rewrite lookup_alter_eq, lookup_insert_eq. simpl. rewrite lookup_insert_eq.
    split_and!; try done. intros g Hg. by rewrite lookup_insert_ne, lookup_empty.
Qed.

(** X4 ([update] of a pattern that has a map).  When the pattern already has a map
    (from an earlier [update], with or without coverage, or from [setFileCoverage]),
    [update] indexes the pattern against every file of the transformed report, and
    [getFileCoverages] of such a file returns the pattern's entry with the report's
    file coverage and verdict. *)
Theorem X4_update_known_pattern_registers st p v obj file fc :
  is_Some (_testPatternsToMap st !! p) →
  transformCoverage (createCoverageMap obj) !! file = Some fc →
  {| fileCoverage := Some fc; isPass := Some v; testPattern := p |}
    ∈ getFileCoverages (exec (update transformCoverage p v obj) st) file.
Proof.
  intros [m Hm] Hfc.
  destruct (update_again transformCoverage p v obj st m Hm) as [Ht Hix].
  apply elem_of_getFileCoverages.
  exists (indexed p (_fileNameToTestPatterns st !! file)), p. split_and!.
  - by rewrite Hix, Hfc.
  - apply elem_of_indexed. by left.
  - unfold getTestPatternFileCoverage, getTestPatternIsPass.
    rewrite Ht, lookup_insert_eq, (lookup_union_Some_l _ _ _ _ Hfc).
    by rewrite update_verdicts, lookup_insert_eq.
Qed.

(** X5 (files outside the report).  When the pattern already has a map, [update]
    leaves the coverage stored for the pattern and a file that the transformed
    report does not contain as it was: a report replaces file by file, it does not
    replace the pattern's map. *)
Theorem X5_update_keeps_other_files st p v obj file :
  is_Some (_testPatternsToMap st !! p) →
  transformCoverage (createCoverageMap obj) !! file = None →
  getTestPatternFileCoverage (exec (update transformCoverage p v obj) st) p file
  = getTestPatternFileCoverage st p file.
Proof.
  intros [m Hm] Hfc.
  destruct (update_again transformCoverage p v obj st m Hm) as [Ht _].
  unfold getTestPatternFileCoverage.
  by rewrite Ht, lookup_insert_eq, Hm, lookup_union_r.
Qed.

(** X6 (repeating a report).  When the pattern already has a map, running the same
    [update] a second time leaves the store the first run left. *)
Theorem X6_update_idempotent_known st p v obj :
  is_Some (_testPatternsToMap st !! p) →
  exec (update transformCoverage p v obj) (exec (update transformCoverage p v obj) st)
  = exec (update transformCoverage p v obj) st.
Proof.
  intros [m Hm].
  set (T := transformCoverage (createCoverageMap obj)).
  set (st1 := exec (update transformCoverage p v obj) st).
  destruct (update_again transformCoverage p v obj st m Hm) as [Ht1 Hix1].
  fold st1 T in Ht1, Hix1.
  assert (Hp1 : _testPatternsToMap st1 !! p = Some (T ∪ m)).
  { by rewrite Ht1, lookup_insert_eq. }
  destruct (update_again transformCoverage p v obj st1 _ Hp1) as [Ht2 Hix2].
  fold T in Ht2, Hix2.
  apply store_eq.
  - apply map_eq. intros file. rewrite Hix2, Hix1.
    destruct (T !! file); [|done]. by rewrite indexed_idemp.
  - unfold st1. by rewrite !update_verdicts, insert_insert_eq.
  - rewrite Ht2, (assoc_L (∪)), (idemp_L (∪) T). by apply insert_id.
  - by rewrite update_map.
Qed.

(** X7 (the reverse index only grows).  [update] for pattern [p] removes no
    pattern from the entries [getFileCoverages] returns for a file, and it adds no
    pattern other than [p]. *)
Theorem X7_update_index_grows st p v obj file q :
  (q ∈ indexedPatterns st file →
   q ∈ indexedPatterns (exec (update transformCoverage p v obj) st) file)
  ∧ (q ∈ indexedPatterns (exec (update transformCoverage p v obj) st) file →
     q = p ∨ q ∈ indexedPatterns st file).
Proof.
  rewrite !indexedPatterns_eq.
  destruct (_testPatternsToMap st !! p) as [m|] eqn:Hm.
  - destruct (update_again transformCoverage p v obj st m Hm) as [_ Hix].
    rewrite Hix.
    destruct (transformCoverage (createCoverageMap obj) !! file); [|tauto].
    simpl. rewrite elem_of_indexed.
    destruct (_fileNameToTestPatterns st !! file) as [s|]; simpl.
    + split; [by eauto|]. intros [->|(s' & [= <-] & Hq)]; by eauto.
    + split; [by intros ?%not_elem_of_nil|]. intros [->|(s' & [=] & _)]. by left.
  - destruct (update_first transformCoverage p v obj st Hm) as [_ Hix].
    rewrite Hix. tauto.
Qed.

End MoreProviderFacts.

(** ** Invariants and summaries *)

Lemma setFileCoverage_keeps_coverage testPattern filePath (map : CoverageMap) st q g :
  is_Some (getTestPatternFileCoverage st q g) →
  is_Some (getTestPatternFileCoverage (exec (setFileCoverage testPattern filePath map) st) q g).
Proof.
  unfold exec, setFileCoverage, mbind, Eff_bind, bind, get_store, fileCoverageFor,
    getTestPatternFileCoverage.
  intros Hq.
  destruct (decide (testPattern = q)) as [->|Hne].
  - destruct (_testPatternsToMap st !! q) as [m|] eqn:Hm; [|by destruct Hq].
    destruct (map !! filePath) as [fc|]; simpl; [|by rewrite Hm].
    rewrite lookup_alter_eq, Hm. simpl.
    destruct (decide (filePath = g)) as [->|Hg].
    + rewrite lookup_insert_eq. by eexists.
    + by rewrite lookup_insert_ne.
  - destruct (_testPatternsToMap st !! testPattern) as [m|] eqn:Hm;
      destruct (map !! filePath) as [fc|]; simpl;
      rewrite ?lookup_alter_ne, ?lookup_insert_ne by done; done.
Qed.

Lemma summaryCounts_eq st filePath :
  summaryCounts st filePath
  = (runsWithVerdict true (getFileCoverages st filePath),
     runsWithVerdict false (getFileCoverages st filePath)).
Proof.
  unfold summaryCounts.
  assert (Hgen : ∀ entries p f,
    foldl (λ '(numOfPassTests, numOfFailedTests) c,
             if isPass c is Some true then (numOfPassTests + 1, numOfFailedTests)
             else if isPass c is Some false then (numOfPassTests, numOfFailedTests + 1)
             else (numOfPassTests, numOfFailedTests))
          (p, f) entries
    = (p + runsWithVerdict true entries, f + runsWithVerdict false entries)).
  { unfold runsWithVerdict.
    induction entries as [|c entries IH]; intros p f.
    - simpl. f_equal; lia.
    - cbn [foldl]. rewrite !filter_cons.
      destruct (isPass c) as [[|]|]; rewrite IH;
        repeat case_decide; try done; cbn [length]; f_equal; lia. }
  rewrite Hgen. f_equal.
Qed.

Lemma runsWithVerdict_total entries :
  Forall (λ c, is_Some (isPass c)) entries →
  runsWithVerdict true entries + runsWithVerdict false entries
  = Z.of_nat (length entries).
Proof.
  unfold runsWithVerdict. induction 1 as [|c entries [[|] Hc] _ IH]; [done|..];
    rewrite !filter_cons, Hc; repeat case_decide; try done; cbn [length]; lia.
Qed.

Lemma lineCoverages_no_entries st editor onNoCoverageInfo L :
  getFileCoverages st (fileName (document editor)) = [] →
  1 ≤ L ≤ lineCount (document editor) →
  lineCoverages st editor onNoCoverageInfo !! L = Some uncoveredLine.
Proof.
  intros Hnone HL. rewrite lineCoverages_lookup. cbv zeta.
  rewrite decide_True by done. by rewrite Hnone.
Qed.

Section Invariants.

Variable transformCoverage : CoverageMap → CoverageMap.

Lemma index_has_coverage_update st testPattern isPass obj :
  index_has_coverage st →
  index_has_coverage (exec (update transformCoverage testPattern isPass obj) st).
Proof.
  intros Hinv file s q Hs Hq. unfold getTestPatternFileCoverage.
  destruct (_testPatternsToMap st !! testPattern) as [m|] eqn:Hm.
  - destruct (update_again transformCoverage testPattern isPass obj st m Hm) as [Ht Hix].
    rewrite Ht. rewrite Hix in Hs.
    assert (Hold : ∀ s', _fileNameToTestPatterns st !! file = Some s' → q ∈ s' →
      is_Some (match <[testPattern := transformCoverage (createCoverageMap obj) ∪ m]>
                       (_testPatternsToMap st) !! q with
               | Some fileCoverage => fileCoverage !! file
               | None => None
               end)).
    { intros s' Hs' Hq'. pose proof (Hinv file s' q Hs' Hq') as Hcov.
      unfold getTestPatternFileCoverage in Hcov.
      destruct (decide (testPattern = q)) as [<-|Hne].
      - rewrite lookup_insert_eq. rewrite Hm in Hcov.
        apply lookup_union_is_Some. by right.
      - by rewrite lookup_insert_ne. }
    destruct (transformCoverage (createCoverageMap obj) !! file) as [fc|] eqn:Hfc;
      [|by eauto].
    injection Hs as <-. apply elem_of_indexed in Hq as [->|(s' & Hs' & Hq)]; [|by eauto].
    rewrite lookup_insert_eq. apply lookup_union_is_Some. left. by eexists.
  - destruct (update_first transformCoverage testPattern isPass obj st Hm) as [Ht Hix].
    rewrite Ht. rewrite Hix in Hs. pose proof (Hinv file s q Hs Hq) as Hcov.
    unfold getTestPatternFileCoverage in Hcov.
    destruct (decide (testPattern = q)) as [<-|Hne].
    + rewrite Hm in Hcov. by destruct Hcov.
    + by rewrite lookup_insert_ne.
Qed.

Lemma reachable_index_has_coverage st :
  reachable transformCoverage st → index_has_coverage st.
Proof.
  induction 1 as [|st _ _|st q v obj _ IH|st q g map _ IH].
  - intros file s q Hs.
    cbv [new_TestPatternsCoverageMapProvider exec reset modify snd] in Hs.
    cbn [_fileNameToTestPatterns] in Hs. by rewrite lookup_empty in Hs.
  - intros file s q Hs.
    cbv [exec reset modify snd] in Hs.
    cbn [_fileNameToTestPatterns] in Hs. by rewrite lookup_empty in Hs.
  - by apply index_has_coverage_update.
  - intros file s q' Hs Hq.
    destruct (setFileCoverage_frame q g map st) as (Hix & _ & _).
    rewrite Hix in Hs. apply setFileCoverage_keeps_coverage. eauto.
Qed.

(** X8 (entries have a file coverage).  In every store reachable from a new
    provider by [update], [setFileCoverage] and [reset] calls, every entry that
    [getFileCoverages] returns has a defined [fileCoverage]: a pattern is indexed
    against a file only together with a coverage for that file, and stored
    coverages are replaced, never removed. *)
Theorem X8_entries_have_file_coverage st filePath :
  reachable transformCoverage st →
  Forall (λ c, is_Some (fileCoverage c)) (getFileCoverages st filePath).
Proof.
  intros Hreach. apply Forall_forall. intros c Hc.
  apply elem_of_getFileCoverages in Hc as (s & q & Hs & Hq & ->). simpl.
  exact (reachable_index_has_coverage st Hreach filePath s q Hs Hq).
Qed.

(** X9 (the summary counts every indexed pattern).  In a reachable store the two
    numbers [getSummary] prints are the numbers of entries of [getFileCoverages]
    with a fail and with a pass verdict, and they add up to the number of patterns
    indexed against the file. *)
Theorem X9_summary_counts st filePath :
  reachable transformCoverage st →
  let entries := getFileCoverages st filePath in
  getSummary st filePath
  = "No. Failed Tests: " +:+ pretty (runsWithVerdict false entries)
      +:+ " No. Pass Tests: " +:+ pretty (runsWithVerdict true entries)
  ∧ runsWithVerdict false entries + runsWithVerdict true entries
    = Z.of_nat (length (indexedPatterns st filePath)).
Proof.
  intros Hreach entries. split.
  - unfold getSummary. by rewrite summaryCounts_eq.
  - unfold indexedPatterns. rewrite length_fmap, Z.add_comm.
    apply runsWithVerdict_total.
    assert (Hverdicts := reachable_index_has_verdict transformCoverage st Hreach).
    apply Forall_forall. intros c Hc.
    apply elem_of_getFileCoverages in Hc as (s & q & Hs & Hq & ->). simpl.
    exact (Hverdicts filePath s q Hs Hq).
Qed.

(** X10 (the [map] property).  In every reachable store the coverage map the
    [map] getter returns is empty: [reset] creates it and nothing writes to it. *)
Theorem X10_map_getter_empty st :
  reachable transformCoverage st → get_map st = ∅.
Proof.
  unfold get_map. induction 1 as [|st _ _|st q v obj _ IH|st q g map _ IH].
  - done.
  - done.
  - by rewrite update_map.
  - by rewrite setFileCoverage_map.
Qed.

Lemma updates_fresh_index calls st :
  NoDup (calls.*1.*1) →
  (∀ p, p ∈ calls.*1.*1 → _testPatternsToMap st !! p = None) →
  _fileNameToTestPatterns (updates transformCoverage calls st)
  = _fileNameToTestPatterns st.
Proof.
  unfold updates. revert st.
  induction calls as [|[[p v] obj] calls IH]; intros st Hnodup Hfresh; [done|].
  cbn [foldl]. cbn [fmap list_fmap fst] in Hnodup, Hfresh.
  apply NoDup_cons in Hnodup as [Hp Hnodup].
  destruct (update_first transformCoverage p v obj st) as [Ht Hix].
  { apply Hfresh, list_elem_of_here. }
  rewrite IH; [done|done|].
  intros q Hq. rewrite Ht, lookup_insert_ne by (by intros ->).
  by apply Hfresh, list_elem_of_further.
Qed.

(** X11 (first reports stay invisible).  After any sequence of [update] calls on a
    new provider in which no pattern is reported twice, [getFileCoverages] is empty
    for every file, and every line of every editor is uncovered, with no run and no
    hue. *)
Theorem X11_first_reports_invisible calls editor onNoCoverageInfo L :
  NoDup (calls.*1.*1) →
  1 ≤ L ≤ lineCount (document editor) →
  let st := updates transformCoverage calls new_TestPatternsCoverageMapProvider in
  (∀ filePath, getFileCoverages st filePath = [])
  ∧ lineCoverages st editor onNoCoverageInfo !! L = Some uncoveredLine.
Proof.
  intros Hnodup HL st.
  assert (Hnone : ∀ filePath, getFileCoverages st filePath = []).
  { intros filePath. unfold getFileCoverages, st.
    rewrite updates_fresh_index; [done|done|]. intros p _. apply lookup_empty. }
  split; [done|]. by apply lineCoverages_no_entries.
Qed.

End Invariants.

(** X12 (a file no pattern is indexed against).  For a file path without an entry
    in the reverse index, [getFileCoverages] returns the empty list, [getSummary]
    prints two zeros, and every line of an editor on that file is uncovered. *)
Theorem X12_unknown_file st editor onNoCoverageInfo L :
  _fileNameToTestPatterns st !! fileName (document editor) = None →
  1 ≤ L ≤ lineCount (document editor) →
  getFileCoverages st (fileName (document editor)) = []
  ∧ getSummary st (fileName (document editor)) = "No. Failed Tests: 0 No. Pass Tests: 0"
  ∧ lineCoverages st editor onNoCoverageInfo !! L = Some uncoveredLine.
Proof.
  intros Hnone HL.
  assert (Hentries : getFileCoverages st (fileName (document editor)) = []).
  { unfold getFileCoverages. by rewrite Hnone. }
  split_and!; [done| |by apply lineCoverages_no_entries].
  unfold getSummary. by rewrite summaryCounts_eq, Hentries.
Qed.

(** * Further properties of the line scoring engine *)

Lemma lookup_insert_fold {V} (v : V) (keys : list Z) (m : gmap Z V) k :
  foldl (λ m idx, <[idx := v]> m) m keys !! k
  = if decide (k ∈ keys) then Some v else m !! k.
Proof.
  revert m. induction keys as [|x keys IH]; intros m; cbn [foldl].
  - by rewrite decide_False by apply not_elem_of_nil.
  - rewrite IH. destruct (decide (k ∈ keys)) as [Hin|Hin].
    + by rewrite decide_True by by apply list_elem_of_further.
    + destruct (decide (k = x)) as [->|Hne].
      * by rewrite lookup_insert_eq, decide_True by apply list_elem_of_here.
      * rewrite lookup_insert_ne by done.
        rewrite decide_False; [done|]. rewrite elem_of_cons. tauto.
Qed.

(** X13 (function hit count of a line).  The object [getFunctionCoverageByLine]
    builds has, at line [L], the value of [f[k]] (possibly undefined) of the last
    entry [k] of [fnMap] whose declaration extends over [L], and no property at all
    when no declaration does. *)
Theorem X13_getFunctionCoverageByLine_last fileCoverage0 L :
  getFunctionCoverageByLine fileCoverage0 !! L
  = (λ entry, f fileCoverage0 !! entry.1)
      <$> last (filter (λ entry, declaredOver L entry.2) (fnMap fileCoverage0)).
Proof.
  unfold getFunctionCoverageByLine.
  assert (Hgen : ∀ entries (m : gmap Z (option Z)),
    foldl (λ lineCoverage '(k, fm),
             let hits := f fileCoverage0 !! k in
             foldl (λ lineCoverage idx, <[idx := hits]> lineCoverage) lineCoverage
               (seqZ (line (start (decl fm)))
                     (line (end_ (decl fm)) - line (start (decl fm)) + 1)))
          m entries !! L
    = match last (filter (λ entry, declaredOver L entry.2) entries) with
      | Some entry => Some (f fileCoverage0 !! entry.1)
      | None => m !! L
      end).
  { induction entries as [|[k fm] entries IH]; intros m; [done|].
    cbn [foldl]. rewrite IH, filter_cons. cbv zeta.
    rewrite lookup_insert_fold. simpl.
    destruct (decide (declaredOver L fm)) as [Hover|Hover].
    - rewrite last_cons.
      destruct (last (filter (λ entry, declaredOver L entry.2) entries)); [done|].
      rewrite decide_True; [done|]. apply elem_of_seqZ. unfold declaredOver in Hover. lia.
    - destruct (last (filter (λ entry, declaredOver L entry.2) entries)); [done|].
      rewrite decide_False; [done|]. rewrite elem_of_seqZ. unfold declaredOver in Hover. lia. }
  rewrite Hgen, lookup_empty.
  by destruct (last (filter (λ entry, declaredOver L entry.2) (fnMap fileCoverage0))).
Qed.

Lemma elem_of_statusList fileCoverage line onNoCoverageInfo s :
  s ∈ statusList fileCoverage line onNoCoverageInfo →
  s = Covered ∨ s = Uncovered ∨ onNoCoverageInfo = Some s.
Proof.
  unfold statusList.
  destruct (mjoin (getFunctionCoverageByLine fileCoverage !! line)) as [fc|],
    (getBranchCoverageByLine fileCoverage !! line) as [bc|],
    (getLineCoverage fileCoverage !! line) as [lc|], onNoCoverageInfo as [o|]; simpl;
    repeat case_bool_decide; try destruct (is_zero (coverage bc));
    rewrite ?elem_of_cons, ?elem_of_nil; intros Hin;
    repeat (destruct Hin as [->|Hin]); try done; auto.
Qed.

Lemma lineStatus_Covered_Forall fileCoverage line onNoCoverageInfo :
  lineStatus fileCoverage line onNoCoverageInfo = Some Covered
  ↔ Forall (λ s, s = Covered) (statusList fileCoverage line onNoCoverageInfo).
Proof.
  destruct (lineStatus_most_severe fileCoverage line onNoCoverageInfo)
    as (status & Hstatus & Hin & Hmax).
  rewrite Hstatus, Forall_forall. split.
  - intros [= ->] s Hs. apply Hmax in Hs. destruct s; simpl in Hs; done || lia.
  - intros Hall. f_equal. by apply Hall.
Qed.

Lemma forall_Some {A} (x : A) (P : A → Prop) : (∀ h, Some x = Some h → P h) ↔ P x.
Proof. split; [by eauto|]. by intros HP h [= <-]. Qed.

Lemma forall_None {A} (P : A → Prop) : (∀ h : A, None = Some h → P h) ↔ True.
Proof. split; [done|]. by intros _ h [=]. Qed.

(** X14 (the middle status).  Unless the caller's [onNoCoverageInfo] callback
    returns it, the status resolved for an entry and a line is never
    partially-covered: it is covered or uncovered. *)
Theorem X14_never_partially_covered fileCoverage0 L onNoCoverageInfo :
  onNoCoverageInfo ≠ Some PartiallyCovered →
  lineStatus fileCoverage0 L onNoCoverageInfo = Some Covered
  ∨ lineStatus fileCoverage0 L onNoCoverageInfo = Some Uncovered.
Proof.
  intros Hcallback.
  destruct (lineStatus_most_severe fileCoverage0 L onNoCoverageInfo)
    as (status & -> & Hin & _).
  apply elem_of_statusList in Hin as [->|[->|Hin]]; [by left|by right|].
  destruct status; [by left|done|by right].
Qed.

(** X15 (when a run covers a line).  The status resolved for an entry and a line is
    covered exactly when every kind of coverage recorded for the line says so (the
    function hit count, when there is one, is positive; the branch coverage, when
    there is one, is not 0; the statement hit count, when there is one, is positive)
    and, when nothing is recorded for the line, the caller's callback returns
    covered. *)
Theorem X15_covered_iff fileCoverage0 L onNoCoverageInfo :
  lineStatus fileCoverage0 L onNoCoverageInfo = Some Covered
  ↔ (∀ hits, mjoin (getFunctionCoverageByLine fileCoverage0 !! L) = Some hits → 0 < hits)
    ∧ (∀ bc, getBranchCoverageByLine fileCoverage0 !! L = Some bc →
             is_zero (coverage bc) = false)
    ∧ (∀ hits, getLineCoverage fileCoverage0 !! L = Some hits → 0 < hits)
    ∧ (mjoin (getFunctionCoverageByLine fileCoverage0 !! L) = None →
       getBranchCoverageByLine fileCoverage0 !! L = None →
       getLineCoverage fileCoverage0 !! L = None →
       onNoCoverageInfo = Some Covered).
Proof.
  rewrite lineStatus_Covered_Forall. unfold statusList.
  destruct (mjoin (getFunctionCoverageByLine fileCoverage0 !! L)) as [fc|],
    (getBranchCoverageByLine fileCoverage0 !! L) as [bc|],
    (getLineCoverage fileCoverage0 !! L) as [lc|], onNoCoverageInfo as [o|]; simpl;
    rewrite ?forall_Some, ?forall_None;
    repeat case_bool_decide; try destruct (is_zero (coverage bc)) eqn:Hbc;
    rewrite ?Forall_cons, ?Forall_nil;
    intuition (try congruence; try lia).
Qed.

(** X16 (nothing recorded for the line).  When the file coverage records neither a
    function hit count nor a branch coverage nor a statement hit count for the line,
    the resolved status is what the caller's callback returns, and uncovered when
    there is no callback. *)
Theorem X16_no_coverage_info fileCoverage0 L onNoCoverageInfo :
  mjoin (getFunctionCoverageByLine fileCoverage0 !! L) = None →
  getBranchCoverageByLine fileCoverage0 !! L = None →
  getLineCoverage fileCoverage0 !! L = None →
  lineStatus fileCoverage0 L onNoCoverageInfo = Some (default Uncovered onNoCoverageInfo).
Proof.
  intros Hf Hb Hl. unfold lineStatus, statusList. rewrite Hf, Hb, Hl.
  by destruct onNoCoverageInfo.
Qed.

(** ** Tallies, totals and the hue at the edges *)

Lemma tally_step_bounds L onNoCoverageInfo p f c :
  (tally L onNoCoverageInfo (p, f) c).1
    ≤ p + (if decide (isPass c = Some true) then 1 else 0)
  ∧ (is_Some (isPass c) →
     (tally L onNoCoverageInfo (p, f) c).2
       ≤ f + (if decide (isPass c = Some false) then 1 else 0)).
Proof.
  unfold tally. destruct (fileCoverage c) as [fc|];
    [destruct (lineStatus fc L onNoCoverageInfo) as [[| |]|]|];
    destruct (isPass c) as [[|]|]; simpl; repeat case_decide; try done;
    (split; [lia|]); intros Hv; try lia; by destruct Hv.
Qed.

Lemma tally_bounds L onNoCoverageInfo entries counts :
  let result := foldl (tally L onNoCoverageInfo) counts entries in
  result.1 ≤ counts.1 + runsWithVerdict true entries
  ∧ (Forall (λ c, is_Some (isPass c)) entries →
     result.2 ≤ counts.2 + runsWithVerdict false entries).
Proof.
  unfold runsWithVerdict. revert counts.
  induction entries as [|c entries IH]; intros [p f]; cbv zeta.
  - simpl. split; [lia|]. intros _. lia.
  - cbn [foldl]. destruct (IH (tally L onNoCoverageInfo (p, f) c)) as [IHp IHf].
    destruct (tally_step_bounds L onNoCoverageInfo p f c) as [Hp Hf].
    rewrite !filter_cons. cbn [fst snd]. split.
    + destruct (decide (isPass c = Some true)); cbn [length] in *; lia.
    + intros [Hc Hall]%Forall_cons. specialize (IHf Hall). specialize (Hf Hc).
      destruct (decide (isPass c = Some false)); cbn [length] in *; lia.
Qed.

Lemma score_finite p f tP tF :
  0 ≤ p → 0 ≤ f → 0 < p + f → 0 < tP → 0 < tF →
  score p f tP tF
  = Fin ((Qc_of_Z p / Qc_of_Z tP)
         / (Qc_of_Z p / Qc_of_Z tP + Qc_of_Z f / Qc_of_Z tF))%Qc
  ∧ (0 < Qc_of_Z p / Qc_of_Z tP + Qc_of_Z f / Qc_of_Z tF)%Qc.
Proof.
  intros Hp Hf Hpf HtP HtF. unfold score.
  rewrite !div_of_Z by lia. cbn [add].
  assert (HtP' : (0 < Qc_of_Z tP)%Qc) by by apply Qc_of_Z_pos.
  assert (HtF' : (0 < Qc_of_Z tF)%Qc) by by apply Qc_of_Z_pos.
  assert (Hab : (0 < Qc_of_Z p / Qc_of_Z tP + Qc_of_Z f / Qc_of_Z tF)%Qc).
  { destruct (decide (0 < p)) as [Hp'|Hp'].
    - apply Qcplus_pos_nonneg; [apply Qcdiv_pos; [by apply Qc_of_Z_pos|done]|].
      apply Qcdiv_nonneg; [by apply Qc_of_Z_nonneg|done].
    - apply Qcplus_nonneg_pos; [apply Qcdiv_nonneg; [by apply Qc_of_Z_nonneg|done]|].
      apply Qcdiv_pos; [apply Qc_of_Z_pos; lia|done]. }
  split; [|done].
  unfold div. by rewrite decide_False by (apply not_eq_sym; by apply Qclt_not_eq).
Qed.

Lemma Qcdiv_of_Z_eq_0 n d : d ≠ 0 → (Qc_of_Z n / Qc_of_Z d = 0)%Qc → n = 0.
Proof.
  intros Hd Hq.
  assert (Hd' : Qc_of_Z d ≠ 0%Qc) by (rewrite <-Z2Qc_inj_0; by intros ?%Z2Qc_inj).
  apply Z2Qc_inj. rewrite Z2Qc_inj_0.
  rewrite <-(Qcmult_div_r (Qc_of_Z n) (Qc_of_Z d)) by done.
  by rewrite Hq, Qcmult_0_r.
Qed.

Section Edges.

Variable transformCoverage : CoverageMap → CoverageMap.

Lemma reachable_entries_have_verdict st filePath :
  reachable transformCoverage st →
  Forall (λ c, is_Some (isPass c)) (getFileCoverages st filePath).
Proof.
  intros Hreach. apply Forall_forall. intros c Hc.
  apply elem_of_getFileCoverages in Hc as (s & q & Hs & Hq & ->). simpl.
  exact (reachable_index_has_verdict transformCoverage st Hreach filePath s q Hs Hq).
Qed.

Lemma record_tallies_within_totals st editor onNoCoverageInfo L r :
  reachable transformCoverage st →
  lineCoverages st editor onNoCoverageInfo !! L = Some r →
  let entries := getFileCoverages st (fileName (document editor)) in
  0 ≤ numOfPassTests r ≤ runsWithVerdict true entries
  ∧ 0 ≤ numOfFailedTests r ≤ runsWithVerdict false entries.
Proof.
  intros Hreach. rewrite lineCoverages_lookup. cbv zeta. case_decide; [|done].
  intros [= <-]. cbn [withHue numOfPassTests numOfFailedTests].
  set (entries := getFileCoverages st (fileName (document editor))).
  destruct (lineRecord_nonneg entries L onNoCoverageInfo) as [Hp Hf].
  destruct (tally_bounds L onNoCoverageInfo entries (0, 0)) as [Hpb Hfb].
  specialize (Hfb (reachable_entries_have_verdict st _ Hreach)).
  unfold lineRecord in *.
  destruct (foldl (tally L onNoCoverageInfo) (0, 0) entries) as [p f].
  simpl in *. lia.
Qed.

(** X17 (tallies within the totals).  In a reachable store, the record of every
    line has a number of passed runs between 0 and the number of entries with a
    pass verdict, and a number of failed runs between 0 and the number of entries
    with a fail verdict. *)
Theorem X17_tallies_within_totals st editor onNoCoverageInfo L r :
  reachable transformCoverage st →
  lineCoverages st editor onNoCoverageInfo !! L = Some r →
  let entries := getFileCoverages st (fileName (document editor)) in
  0 ≤ numOfPassTests r ≤ runsWithVerdict true entries
  ∧ 0 ≤ numOfFailedTests r ≤ runsWithVerdict false entries.
Proof. apply record_tallies_within_totals. Qed.

End Edges.

Lemma record_hue st editor onNoCoverageInfo L r :
  lineCoverages st editor onNoCoverageInfo !! L = Some r →
  isCovered r = true →
  0 < numOfPassTests r + numOfFailedTests r
  ∧ hue r = Some (score (numOfPassTests r) (numOfFailedTests r)
                    (runsWithVerdict true
                       (getFileCoverages st (fileName (document editor))))
                    (runsWithVerdict false
                       (getFileCoverages st (fileName (document editor))))).
Proof.
  rewrite lineCoverages_lookup. cbv zeta. case_decide; [|done].
  intros [= <-]. cbn [withHue isCovered numOfPassTests numOfFailedTests hue].
  intros Hcov. rewrite Hcov, add_zero_l. split; [|done].
  rewrite lineRecord_isCovered in Hcov. by apply bool_decide_eq_true in Hcov.
Qed.

Lemma div_zero_zero : div (of_Z 0) (of_Z 0) = NaN.
Proof. reflexivity. Qed.

Lemma div_NaN_l x : div NaN x = NaN.
Proof. by destruct x. Qed.

Lemma div_NaN_r x : div x NaN = NaN.
Proof. by destruct x. Qed.

Lemma add_NaN_r x : add x NaN = NaN.
Proof. by destruct x. Qed.

Lemma add_NaN_l x : add NaN x = NaN.
Proof. by destruct x. Qed.

Section DivisionByZero.

Variable transformCoverage : CoverageMap → CoverageMap.

(** X18 (one verdict missing among the entries).  In a reachable store, when no
    entry of the file has a pass verdict, or none has a fail verdict, the hue of
    every covered line is NaN: the ratio of the missing side is 0 / 0. *)
Theorem X18_hue_NaN_without_both_verdicts st editor onNoCoverageInfo L r :
  reachable transformCoverage st →
  lineCoverages st editor onNoCoverageInfo !! L = Some r →
  isCovered r = true →
  let entries := getFileCoverages st (fileName (document editor)) in
  runsWithVerdict true entries = 0 ∨ runsWithVerdict false entries = 0 →
  hue r = Some NaN.
Proof.
  intros Hreach Hr Hcov entries Hzero.
  destruct (record_tallies_within_totals transformCoverage st editor onNoCoverageInfo
              L r Hreach Hr) as [Hp Hf].
  fold entries in Hp, Hf.
  destruct (record_hue st editor onNoCoverageInfo L r Hr Hcov) as [Hpos ->].
  fold entries. f_equal. unfold score.
  destruct Hzero as [Hzero|Hzero]; rewrite Hzero in *.
  - assert (numOfPassTests r = 0) as -> by lia.
    by rewrite div_zero_zero, div_NaN_l.
  - assert (numOfFailedTests r = 0) as -> by lia.
    by rewrite div_zero_zero, add_NaN_r, div_NaN_r.
Qed.

End DivisionByZero.

Lemma Some_Fin_inj x y : Some (Fin x) = Some (Fin y) → x = y.
Proof. congruence. Qed.

(** X19 (the two ends of the scale).  For a covered line of a file with at least
    one pass and one fail entry: the hue is 1 exactly when no failed run covers the
    line, and 0 exactly when no passed run covers it. *)
Theorem X19_hue_extremes st editor onNoCoverageInfo L r :
  lineCoverages st editor onNoCoverageInfo !! L = Some r →
  isCovered r = true →
  let entries := getFileCoverages st (fileName (document editor)) in
  runsWithVerdict true entries ≠ 0 →
  runsWithVerdict false entries ≠ 0 →
  (hue r = Some (Fin 1%Qc) ↔ numOfFailedTests r = 0)
  ∧ (hue r = Some (Fin 0%Qc) ↔ numOfPassTests r = 0).
Proof.
  intros Hr Hcov entries HtP HtF.
  destruct (record_hue st editor onNoCoverageInfo L r Hr Hcov) as [Hpos ->].
  fold entries.
  assert (Hnn : 0 ≤ numOfPassTests r ∧ 0 ≤ numOfFailedTests r).
  { revert Hr. rewrite lineCoverages_lookup. cbv zeta. case_decide; [|done].
    intros [= <-]. apply lineRecord_nonneg. }
  destruct Hnn as [Hp Hf].
  pose proof (runsWithVerdict_nonneg true entries).
  pose proof (runsWithVerdict_nonneg false entries).
  destruct (score_finite (numOfPassTests r) (numOfFailedTests r)
              (runsWithVerdict true entries) (runsWithVerdict false entries))
    as [-> Hsum]; [lia..|].
  set (a := (Qc_of_Z (numOfPassTests r) / Qc_of_Z (runsWithVerdict true entries))%Qc) in *.
  set (b := (Qc_of_Z (numOfFailedTests r) / Qc_of_Z (runsWithVerdict false entries))%Qc) in *.
  assert (Hne : (a + b)%Qc ≠ 0%Qc) by (apply not_eq_sym; by apply Qclt_not_eq).
  assert (Hmul : ∀ q, (a / (a + b))%Qc = q → a = ((a + b) * q)%Qc).
  { intros q <-. by rewrite Qcmult_div_r. }
  split; split.
  - intros Hq%Some_Fin_inj. apply Hmul in Hq. rewrite Qcmult_1_r in Hq.
    apply (Qcdiv_of_Z_eq_0 _ (runsWithVerdict false entries)); [done|]. fold b.
    apply (inj (Qcplus a)). by rewrite Qcplus_0_r.
  - intros Hzero. do 2 f_equal.
    assert (Hb : b = 0%Qc).
    { subst b. rewrite Hzero. unfold Qcdiv. by rewrite Z2Qc_inj_0, Qcmult_0_l. }
    rewrite Hb, Qcplus_0_r in Hne |- *.
    unfold Qcdiv. by apply Qcmult_inv_r.
  - intros Hq%Some_Fin_inj. apply Hmul in Hq. rewrite Qcmult_0_r in Hq.
    by apply (Qcdiv_of_Z_eq_0 _ (runsWithVerdict true entries)).
  - intros Hzero. do 2 f_equal.
    assert (Ha : a = 0%Qc).
    { subst a. rewrite Hzero. unfold Qcdiv. by rewrite Z2Qc_inj_0, Qcmult_0_l. }
    rewrite Ha. unfold Qcdiv. by rewrite Qcmult_0_l.
Qed.

(** X20 (the lines of the result).  The result of [lineCoverages] has a record for
    line [L] exactly when [L] is between 1 and the line count of the document; a
    document without lines gives an empty result.  A record has a hue exactly when
    it is covered. *)
Theorem X20_lines_of_the_result st editor onNoCoverageInfo L :
  (is_Some (lineCoverages st editor onNoCoverageInfo !! L)
   ↔ 1 ≤ L ≤ lineCount (document editor))
  ∧ (lineCount (document editor) ≤ 0 → lineCoverages st editor onNoCoverageInfo = ∅)
  ∧ (∀ r, lineCoverages st editor onNoCoverageInfo !! L = Some r →
          (is_Some (hue r) ↔ isCovered r = true)).
Proof.
  split_and!.
  - rewrite lineCoverages_lookup. cbv zeta. case_decide.
    + split; [done|]. by eexists.
    + split; [by intros [? ?]|done].
  - intros Hcount. apply map_eq. intros k.
    rewrite lineCoverages_lookup, lookup_empty. cbv zeta.
    by rewrite decide_False by lia.
  - intros r. rewrite lineCoverages_lookup. cbv zeta. case_decide; [|done].
    intros [= <-]. cbn [withHue isCovered hue].
    destruct (isCovered (lineRecord _ _ _)); split; try done; by intros [? ?].
Qed.

(** * Properties of the code-lens compression *)

Module CodeLensFacts.
Import CodeLenses.

Lemma compressFrom_step firstLine currentCodelen next rest :
  compressFrom firstLine (currentCodelen :: next :: rest)
  = if negb (continues currentCodelen next) then
      match titleOf currentCodelen with
      | Some t =>
          {| range := Range_new firstLine 0 firstLine 0;
             command_ := Some {| title := t; command := "" |} |}
            :: compressFrom (line (start (range next))) (next :: rest)
      | None => compressFrom firstLine (next :: rest)
      end
    else compressFrom firstLine (next :: rest).
Proof. reflexivity. Qed.

Lemma compressFrom_length firstLine codelenses :
  (length (compressFrom firstLine codelenses) ≤ pred (length codelenses))%nat.
Proof.
  revert firstLine. induction codelenses as [|current codelenses IH]; intros firstLine.
  - done.
  - destruct codelenses as [|next rest]; [done|].
    rewrite compressFrom_step.
    destruct (negb (continues current next)); [destruct (titleOf current)|];
      cbn [length] in *; try (specialize (IH firstLine); lia).
    specialize (IH (line (start (range next)))). lia.
Qed.

Lemma oneRun_tail current codelenses : oneRun (current :: codelenses) → oneRun codelenses.
Proof. intros Hrun i a b Ha Hb. by apply (Hrun (S i) a b). Qed.

Lemma compressFrom_oneRun firstLine codelenses :
  oneRun codelenses → compressFrom firstLine codelenses = [].
Proof.
  revert firstLine. induction codelenses as [|current codelenses IH]; intros firstLine Hrun.
  - done.
  - destruct codelenses as [|next rest]; [done|].
    rewrite compressFrom_step, (Hrun 0%nat current next) by done.
    cbn [negb]. apply IH. by apply oneRun_tail in Hrun.
Qed.

Lemma compressFrom_run firstLine run lastOfRun next rest t :
  oneRun run → last run = Some lastOfRun →
  continues lastOfRun next = false → titleOf lastOfRun = Some t →
  compressFrom firstLine (run ++ next :: rest)
  = {| range := Range_new firstLine 0 firstLine 0;
       command_ := Some {| title := t; command := "" |} |}
    :: compressFrom (line (start (range next))) (next :: rest).
Proof.
  intros Hrun Hlast Hnext Ht. induction run as [|current run IH]; [done|].
  destruct run as [|second run].
  - injection Hlast as ->. cbn [app]. by rewrite compressFrom_step, Hnext, Ht.
  - cbn [app]. rewrite compressFrom_step, (Hrun 0%nat current second) by done.
    cbn [negb]. apply IH; [by apply oneRun_tail in Hrun|done].
Qed.

(** X21 (the last group is never emitted).  [compressCodeLenses] returns fewer
    lenses than it is given, whatever they are: none for an empty list, none for a
    single lens, and at most [n - 1] for [n] lenses. *)
Theorem X21_compress_drops_last codelenses :
  (length (compressCodeLenses codelenses) ≤ pred (length codelenses))%nat
  ∧ (∀ only, compressCodeLenses [only] = []).
Proof.
  split; [|done]. destruct codelenses as [|first rest]; [done|].
  apply compressFrom_length.
Qed.

(** X22 (one run of lenses).  When every lens has the title of the lens before it
    and starts on the line after the one that lens ends on, [compressCodeLenses]
    returns no lens at all. *)
Theorem X22_compress_one_run codelenses :
  oneRun codelenses → compressCodeLenses codelenses = [].
Proof.
  intros Hrun. destruct codelenses as [|first rest]; [done|].
  by apply compressFrom_oneRun.
Qed.

(** X23 (one lens per finished run).  When the list starts with a run of lenses
    (each continuing the one before), the last lens of the run has a title and the
    lens after the run does not continue it, [compressCodeLenses] returns one lens
    for the run, with that title, an empty command and the zero-width range at the
    start of the first line of the run, followed by what it returns for the rest of
    the list. *)
Theorem X23_compress_run first run lastOfRun next rest t :
  oneRun (first :: run) → last (first :: run) = Some lastOfRun →
  continues lastOfRun next = false → titleOf lastOfRun = Some t →
  compressCodeLenses ((first :: run) ++ next :: rest)
  = {| range := Range_new (line (start (range first))) 0 (line (start (range first))) 0;
       command_ := Some {| title := t; command := "" |} |}
    :: compressCodeLenses (next :: rest).
Proof.
  intros Hrun Hlast Hnext Ht.
  change (compressCodeLenses ((first :: run) ++ next :: rest))
    with (compressFrom (line (start (range first))) ((first :: run) ++ next :: rest)).
  by rewrite (compressFrom_run _ _ lastOfRun next rest t).
Qed.

End CodeLensFacts.

(** * Properties of the debug configuration provider *)

Module DebugConfigFacts.
Import DebugConfig.

(** X24 (a prepared run is used once).  Resolving a configuration named
    vscode-jest-tests that has an [args] array returns and leaves no file name
    pending; whatever configuration is resolved next, with or without [args], that
    call returns, leaves the [args] of its configuration as they are and leaves the
    provider as it is. *)
Theorem X24_resolve_consumes this debugConfiguration args0 next :
  name debugConfiguration = "vscode-jest-tests" →
  args debugConfiguration = Some args0 →
  let '(completion1, _, this1) := resolveDebugConfiguration this debugConfiguration in
  let '(completion2, next2, this2) := resolveDebugConfiguration this1 next in
  completion1 = Normal tt ∧ fileNameToRun this1 = ""
  ∧ completion2 = Normal tt ∧ args next2 = args next ∧ this2 = this1.
Proof.
  intros Hname Hargs. unfold resolveDebugConfiguration at 1.
  rewrite Hname. rewrite bool_decide_false by (by intros []).
  assert (Hnext : ∀ this1, fileNameToRun this1 = "" →
    let '(completion2, next2, this2) := resolveDebugConfiguration this1 next in
    completion2 = Normal tt ∧ args next2 = args next ∧ this2 = this1).
  { intros this1 Hnone. unfold resolveDebugConfiguration. rewrite Hnone.
    case_bool_decide; [done|]. rewrite bool_decide_false by (by intros []).
    by destruct (env next). }
  case_bool_decide as Hfile.
  - assert (Hargs' : args
        (set_env (Some (<["CI" := "vscode-jest-tests"]>
           (default ∅ (env (if env debugConfiguration is Some _ then debugConfiguration
                            else set_env (Some ∅) debugConfiguration)))))
           (if env debugConfiguration is Some _ then debugConfiguration
            else set_env (Some ∅) debugConfiguration)) = Some args0).
    { by destruct (env debugConfiguration). }
    rewrite Hargs'. specialize (Hnext {| fileNameToRun := ""; testToRun := "" |} eq_refl).
    destruct (resolveDebugConfiguration _ next) as [[completion2 next2] this2].
    by destruct Hnext as (-> & -> & ->).
  - assert (Hnone : fileNameToRun this = "").
    { destruct (decide (fileNameToRun this = "")); [done|]. by destruct Hfile. }
    specialize (Hnext this Hnone).
    destruct (resolveDebugConfiguration this next) as [[completion2 next2] this2].
    by destruct Hnext as (-> & -> & ->).
Qed.

(** X25 (a prepared run reaches the configuration).  After
    [prepareTestRun(fileNameToRun, testToRun)] with two non-empty strings, resolving
    a configuration named vscode-jest-tests with an [args] array appends the file
    name, "--testNamePattern" and the test name to [args], in this order, sets
    [env.CI] to "vscode-jest-tests", keeps every other entry of [env] and every
    other property of the configuration. *)
Theorem X25_resolve_appends this fileNameToRun0 testToRun0 debugConfiguration args0 :
  fileNameToRun0 ≠ "" → testToRun0 ≠ "" →
  name debugConfiguration = "vscode-jest-tests" →
  args debugConfiguration = Some args0 →
  let '(completion, resolved, _) :=
    resolveDebugConfiguration (prepareTestRun this fileNameToRun0 testToRun0)
      debugConfiguration in
  completion = Normal tt
  ∧ args resolved = Some (args0 ++ [fileNameToRun0; "--testNamePattern"; testToRun0])
  ∧ (∃ env', env resolved = Some env'
             ∧ env' !! "CI" = Some "vscode-jest-tests"
             ∧ ∀ k, k ≠ "CI" → env' !! k = default ∅ (env debugConfiguration) !! k)
  ∧ (type resolved, name resolved, request resolved, cwd resolved, console resolved,
     internalConsoleOptions resolved, runtimeExecutable resolved, program resolved,
     protocol resolved)
    = (type debugConfiguration, name debugConfiguration, request debugConfiguration,
       cwd debugConfiguration, console debugConfiguration,
       internalConsoleOptions debugConfiguration, runtimeExecutable debugConfiguration,
       program debugConfiguration, protocol debugConfiguration).
Proof.
  intros Hfile Htest Hname Hargs. unfold resolveDebugConfiguration, prepareTestRun.
  rewrite Hname. rewrite bool_decide_false by (by intros []).
  cbn [DebugConfig.fileNameToRun DebugConfig.testToRun].
  rewrite !bool_decide_true by done.
  destruct (env debugConfiguration) as [env0|] eqn:Henv; simpl; rewrite Hargs; simpl.
  - split_and!; [done|by rewrite <-!(assoc_L (++))| |by rewrite Hname].
    eexists. split; [reflexivity|]. rewrite ?Henv. simpl.
    split; [by rewrite lookup_insert_eq|].
    intros k Hk. by rewrite lookup_insert_ne.
  - split_and!; [done|by rewrite <-!(assoc_L (++))| |by rewrite Hname].
    eexists. split; [reflexivity|]. rewrite ?Henv. simpl.
    split; [by rewrite lookup_insert_eq|].
    intros k Hk. by rewrite lookup_insert_ne.
Qed.

(** X26 (no [args] to push onto).  With a file name pending, resolving a
    configuration named vscode-jest-tests that has no [args] throws; the file name
    and the test name stay pending, and the configuration object already carries
    [env.CI]. *)
Theorem X26_resolve_throws_without_args this debugConfiguration :
  fileNameToRun this ≠ "" →
  name debugConfiguration = "vscode-jest-tests" →
  args debugConfiguration = None →
  let '(completion, after, this') := resolveDebugConfiguration this debugConfiguration in
  completion = Throw "TypeError"
  ∧ this' = this
  ∧ ∃ env', env after = Some env' ∧ env' !! "CI" = Some "vscode-jest-tests".
Proof.
  intros Hfile Hname Hargs. unfold resolveDebugConfiguration.
  rewrite Hname. rewrite bool_decide_false by (by intros []).
  rewrite bool_decide_true by done.
  destruct (env debugConfiguration) as [env0|] eqn:Henv; simpl; rewrite Hargs;
    (split_and!; [done|done|]); eexists; (split; [done|]); by rewrite lookup_insert_eq.
Qed.

(** X27 (the provided configuration resolves).  Whatever the words of the
    create-react-app command and whatever run is pending, the provider offers one
    configuration; it is named vscode-jest-tests, its [args] end with
    "--runInBand", it has either a [program] or a [runtimeExecutable] and not both,
    and resolving it returns. *)
Theorem X27_provided_configuration_resolves craCommand this :
  ∃ debugConfiguration args0,
    provideDebugConfigurations craCommand = [debugConfiguration]
    ∧ name debugConfiguration = "vscode-jest-tests"
    ∧ args debugConfiguration = Some (args0 ++ ["--runInBand"])
    ∧ (is_Some (program debugConfiguration)
       ↔ runtimeExecutable debugConfiguration = None)
    ∧ (resolveDebugConfiguration this debugConfiguration).1.1 = Normal tt.
Proof.
  assert (Hresolve : ∀ debugConfiguration args0,
    name debugConfiguration = "vscode-jest-tests" →
    args debugConfiguration = Some args0 → env debugConfiguration = None →
    (resolveDebugConfiguration this debugConfiguration).1.1 = Normal tt).
  { intros c args0 Hname Hargs Henv. unfold resolveDebugConfiguration.
    rewrite Hname, Henv. rewrite bool_decide_false by (by intros []). simpl.
    rewrite Hargs. by case_bool_decide. }
  unfold provideDebugConfigurations.
  destruct craCommand as [[|first rest]|]; [| |].
  - eexists _, []. split_and!; [reflexivity..| |by eapply Hresolve].
    split; [done|by eexists].
  - case_bool_decide.
    + eexists _, rest. split_and!; [reflexivity..| |by eapply Hresolve].
      split; [by intros [? ?]|done].
    + eexists _, []. split_and!; [reflexivity..| |by eapply Hresolve].
      split; [done|by eexists].
  - eexists _, []. split_and!; [reflexivity..| |by eapply Hresolve].
    split; [done|by eexists].
Qed.

End DebugConfigFacts.

(** * The further properties at concrete inputs *)

Lemma reportedTwice_reachable : reachable Scenario.noSourceMaps Scenario.reportedTwice.
Proof.
  unfold Scenario.reportedTwice. cbn [reports].
  do 4 apply reachable_update. apply reachable_new.
Qed.

Lemma onlyPassing_reachable : reachable Scenario.noSourceMaps Examples.onlyPassing.
Proof.
  unfold Examples.onlyPassing, updates. cbn [foldl].
  do 2 apply reachable_update. apply reachable_new.
Qed.

Lemma X2_setFileCoverage_missing_file_witness :
  (setFileCoverage "C" "g.ts" Scenario.covA Scenario.reportedTwice).1
    = Throw "No file coverage available for: g.ts"
  ∧ _testPatternsToMap
      (exec (setFileCoverage "C" "g.ts" Scenario.covA) Scenario.reportedTwice)
    = <["C" := ∅]> (_testPatternsToMap Scenario.reportedTwice).
Proof.
  destruct (X2_setFileCoverage_missing_file Scenario.reportedTwice "C" "g.ts" Scenario.covA)
    as (Hthrow & _ & _ & Htable); [reflexivity|].
  split; [exact Hthrow|exact Htable].
Defined.

Lemma X3_setFileCoverage_stores_witness :
  getTestPatternFileCoverage
    (exec (setFileCoverage "C" "f.ts" Scenario.covB) Scenario.reportedTwice) "C" "f.ts"
  = Some (Scenario.statements "f.ts" [(10, 3); (20, 0)]).
Proof.
  destruct (X3_setFileCoverage_stores Scenario.reportedTwice "C" "f.ts" Scenario.covB
              (Scenario.statements "f.ts" [(10, 3); (20, 0)]))
    as (_ & Hstored & _); [reflexivity|exact Hstored].
Defined.

Lemma X4_update_known_pattern_registers_witness :
  {| fileCoverage := Some (Scenario.statements "f.ts" [(10, 3); (20, 0)]);
     isPass := Some false; testPattern := "A" |}
    ∈ getFileCoverages
        (exec (update Scenario.noSourceMaps "A" false (Some Scenario.covB))
           Scenario.reportedOnce) "f.ts".
Proof.
  apply (X4_update_known_pattern_registers Scenario.noSourceMaps Scenario.reportedOnce
           "A" false (Some Scenario.covB) "f.ts").
  - vm_compute. by eexists.
  - reflexivity.
Defined.

Lemma X1_update_loop_never_throws_witness :
  "f.ts" ∈ files Scenario.covB
  ∧ (setFileCoverage "A" "f.ts" Scenario.covB new_TestPatternsCoverageMapProvider).1
    = Normal tt
  ∧ (setFileCoverage "A" "f.ts" Scenario.covB Scenario.reportedOnce).1 = Normal tt.
Proof.
  assert (Hfile : "f.ts" ∈ files Scenario.covB).
  { apply elem_of_files. vm_compute. by eexists. }
  destruct (X1_update_loop_never_throws Scenario.reportedOnce "A" Scenario.covB)
    as [_ Hset]; [vm_compute; by eexists|].
  split; [exact Hfile|]. split; apply Hset; exact Hfile.
Defined.

Lemma X5_update_keeps_other_files_witness :
  let st' := exec (update Scenario.noSourceMaps "A" true
                     (Some {[ "g.ts" := Scenario.uncalled ]}))
               Scenario.reportedTwice in
  getTestPatternFileCoverage st' "A" "f.ts"
    = getTestPatternFileCoverage Scenario.reportedTwice "A" "f.ts"
  ∧ getTestPatternFileCoverage st' "A" "f.ts"
    = Some (Scenario.statements "f.ts" [(10, 1); (20, 1)])
  ∧ getTestPatternFileCoverage st' "A" "g.ts" = Some Scenario.uncalled.
Proof.
  split; [|split; vm_compute; reflexivity].
  apply (X5_update_keeps_other_files Scenario.noSourceMaps Scenario.reportedTwice
           "A" true (Some {[ "g.ts" := Scenario.uncalled ]}) "f.ts").
  - vm_compute. by eexists.
  - reflexivity.
Defined.

Lemma X6_update_idempotent_known_witness :
  exec (update Scenario.noSourceMaps "A" false (Some Scenario.covB))
    (exec (update Scenario.noSourceMaps "A" false (Some Scenario.covB))
       Scenario.reportedOnce)
  = exec (update Scenario.noSourceMaps "A" false (Some Scenario.covB))
      Scenario.reportedOnce.
Proof.
  apply (X6_update_idempotent_known Scenario.noSourceMaps Scenario.reportedOnce
           "A" false (Some Scenario.covB)).
  vm_compute. by eexists.
Defined.

Lemma X8_entries_have_file_coverage_witness :
  Forall (λ c, is_Some (fileCoverage c)) (getFileCoverages Scenario.reportedTwice "f.ts").
Proof.
  apply (X8_entries_have_file_coverage Scenario.noSourceMaps Scenario.reportedTwice "f.ts").
  apply reportedTwice_reachable.
Defined.

Lemma X9_summary_counts_witness :
  getSummary Scenario.reportedTwice "f.ts" = "No. Failed Tests: 1 No. Pass Tests: 1".
Proof.
  destruct (X9_summary_counts Scenario.noSourceMaps Scenario.reportedTwice "f.ts")
    as [Hsummary _]; [apply reportedTwice_reachable|].
  rewrite Hsummary. vm_compute. reflexivity.
Defined.

Lemma X10_map_getter_empty_witness : get_map Scenario.reportedTwice = ∅.
Proof.
  apply (X10_map_getter_empty Scenario.noSourceMaps Scenario.reportedTwice).
  apply reportedTwice_reachable.
Defined.

Lemma X11_first_reports_invisible_witness :
  let st := updates Scenario.noSourceMaps
              [("A", true, Some Scenario.covA); ("B", false, Some Scenario.covB)]
              new_TestPatternsCoverageMapProvider in
  (∀ filePath, getFileCoverages st filePath = [])
  ∧ lineCoverages st Scenario.editor None !! 10 = Some uncoveredLine.
Proof.
  apply (X11_first_reports_invisible Scenario.noSourceMaps
           [("A", true, Some Scenario.covA); ("B", false, Some Scenario.covB)]
           Scenario.editor None 10).
  - cbn. apply NoDup_cons. split; [|apply NoDup_singleton].
    intros Hin%list_elem_of_singleton. discriminate Hin.
  - simpl. lia.
Defined.

Lemma X12_unknown_file_witness :
  getFileCoverages Scenario.reportedOnce "f.ts" = []
  ∧ getSummary Scenario.reportedOnce "f.ts" = "No. Failed Tests: 0 No. Pass Tests: 0"
  ∧ lineCoverages Scenario.reportedOnce Scenario.editor None !! 10 = Some uncoveredLine.
Proof.
  apply (X12_unknown_file Scenario.reportedOnce Scenario.editor None 10).
  - reflexivity.
  - simpl. lia.
Defined.

Lemma X14_never_partially_covered_witness :
  lineStatus Scenario.uncalled 3 (Some Covered) = Some Covered
  ∨ lineStatus Scenario.uncalled 3 (Some Covered) = Some Uncovered.
Proof.
  apply (X14_never_partially_covered Scenario.uncalled 3 (Some Covered)). discriminate.
Defined.

Lemma X16_no_coverage_info_witness :
  lineStatus Scenario.uncalled 7 (Some PartiallyCovered) = Some PartiallyCovered.
Proof.
  apply (X16_no_coverage_info Scenario.uncalled 7 (Some PartiallyCovered)); reflexivity.
Defined.

Lemma X17_tallies_within_totals_witness :
  ∃ r, lineCoverages Scenario.reportedTwice Scenario.editor None !! 20 = Some r
       ∧ 0 ≤ numOfPassTests r
           ≤ runsWithVerdict true (getFileCoverages Scenario.reportedTwice "f.ts")
       ∧ 0 ≤ numOfFailedTests r
           ≤ runsWithVerdict false (getFileCoverages Scenario.reportedTwice "f.ts").
Proof.
  eexists. split; [vm_compute; reflexivity|].
  apply (X17_tallies_within_totals Scenario.noSourceMaps Scenario.reportedTwice
           Scenario.editor None 20).
  - apply reportedTwice_reachable.
  - vm_compute; reflexivity.
Defined.

Lemma X18_hue_NaN_without_both_verdicts_witness :
  ∃ r, lineCoverages Examples.onlyPassing Scenario.editor None !! 10 = Some r
       ∧ isCovered r = true ∧ hue r = Some NaN.
Proof.
  eexists. split; [vm_compute; reflexivity|]. split; [reflexivity|].
  apply (X18_hue_NaN_without_both_verdicts Scenario.noSourceMaps Examples.onlyPassing
           Scenario.editor None 10).
  - apply onlyPassing_reachable.
  - vm_compute; reflexivity.
  - reflexivity.
  - right. vm_compute. reflexivity.
Defined.

Lemma X19_hue_extremes_witness :
  ∃ r, lineCoverages Scenario.reportedTwice Scenario.editor None !! 20 = Some r
       ∧ (hue r = Some (Fin 1%Qc) ↔ numOfFailedTests r = 0)
       ∧ (hue r = Some (Fin 0%Qc) ↔ numOfPassTests r = 0).
Proof.
  eexists. split; [vm_compute; reflexivity|].
  apply (X19_hue_extremes Scenario.reportedTwice Scenario.editor None 20).
  - vm_compute; reflexivity.
  - reflexivity.
  - vm_compute. discriminate.
  - vm_compute. discriminate.
Defined.

Lemma X22_compress_one_run_witness :
  CodeLenses.compressCodeLenses
    [Examples.lensOn 4 "t"; Examples.lensOn 5 "t"; Examples.lensOn 6 "t"] = [].
Proof.
  apply (CodeLensFacts.X22_compress_one_run
           [Examples.lensOn 4 "t"; Examples.lensOn 5 "t"; Examples.lensOn 6 "t"]).
  intros [|[|[|i]]] current next Hcurrent Hnext; simpl in Hcurrent, Hnext;
    try discriminate; injection Hcurrent as <-; injection Hnext as <-; reflexivity.
Defined.

Lemma X23_compress_run_witness :
  CodeLenses.compressCodeLenses
    ([Examples.lensOn 4 "t"; Examples.lensOn 5 "t"]
       ++ Examples.lensOn 9 "u" :: [Examples.lensOn 10 "u"])
  = Examples.lensOn 4 "t"
    :: CodeLenses.compressCodeLenses [Examples.lensOn 9 "u"; Examples.lensOn 10 "u"].
Proof.
  apply (CodeLensFacts.X23_compress_run (Examples.lensOn 4 "t") [Examples.lensOn 5 "t"]
           (Examples.lensOn 5 "t") (Examples.lensOn 9 "u") [Examples.lensOn 10 "u"] "t").
  - intros [|[|i]] current next Hcurrent Hnext; simpl in Hcurrent, Hnext;
      try discriminate; injection Hcurrent as <-; injection Hnext as <-; reflexivity.
  - reflexivity.
  - reflexivity.
  - reflexivity.
Defined.

Lemma X24_resolve_consumes_witness :
  let '(completion1, _, this1) :=
    DebugConfig.resolveDebugConfiguration
      (DebugConfig.prepareTestRun Examples.idle "a.test.ts" "adds") Examples.withArgs in
  let '(completion2, next2, this2) :=
    DebugConfig.resolveDebugConfiguration this1 Examples.withoutArgs in
  completion1 = Normal tt ∧ DebugConfig.fileNameToRun this1 = ""
  ∧ completion2 = Normal tt
  ∧ DebugConfig.args next2 = DebugConfig.args Examples.withoutArgs ∧ this2 = this1.
Proof.
  apply (DebugConfigFacts.X24_resolve_consumes
           (DebugConfig.prepareTestRun Examples.idle "a.test.ts" "adds")
           Examples.withArgs ["--runInBand"] Examples.withoutArgs); reflexivity.
Defined.

Lemma X25_resolve_appends_witness :
  DebugConfig.args
    (DebugConfig.resolveDebugConfiguration
       (DebugConfig.prepareTestRun Examples.idle "a.test.ts" "adds") Examples.withArgs).1.2
  = Some ["--runInBand"; "a.test.ts"; "--testNamePattern"; "adds"].
Proof.
  pose proof (DebugConfigFacts.X25_resolve_appends Examples.idle "a.test.ts" "adds"
                Examples.withArgs ["--runInBand"]) as Happends.
  destruct (DebugConfig.resolveDebugConfiguration
              (DebugConfig.prepareTestRun Examples.idle "a.test.ts" "adds")
              Examples.withArgs) as [[completion resolved] this'].
  destruct Happends as (_ & Hargs & _); [discriminate|discriminate|reflexivity|reflexivity|].
  exact Hargs.
Defined.

Lemma X26_resolve_throws_without_args_witness :
  let '(completion, after, this') :=
    DebugConfig.resolveDebugConfiguration
      (DebugConfig.prepareTestRun Examples.idle "a.test.ts" "adds") Examples.withoutArgs in
  completion = Throw "TypeError"
  ∧ this' = DebugConfig.prepareTestRun Examples.idle "a.test.ts" "adds"
  ∧ ∃ env', DebugConfig.env after = Some env'
            ∧ env' !! "CI" = Some "vscode-jest-tests".
Proof.
  apply (DebugConfigFacts.X26_resolve_throws_without_args
           (DebugConfig.prepareTestRun Examples.idle "a.test.ts" "adds")
           Examples.withoutArgs).
  - discriminate.
  - reflexivity.
  - reflexivity.
Defined.
